(** * FIRRTL folds and canonicalizations (lib/Dialect/FIRRTL/FIRRTLFolds.cpp)

    A shallow embedding of the fold hooks and rewrite patterns of the FIRRTL
    dialect.  Machine integers are [Z] with their conversions written out,
    LLVM's [APInt] is a width/value record whose operations fail where the
    library asserts, the IR is a finite map from value ids to defining
    operations, and the pattern rewriter is explicit state passing. *)

From Stdlib Require Import ZArith Lia Bool List.
From stdpp Require Import base decidable option gmap.
Import ListNotations.

Local Open Scope Z_scope.

(** ** Machine integers *)

Module Int32.
Definition modulus : Z := 2 ^ 32.
Definition half_modulus : Z := 2 ^ 31.

(** Conversion to [unsigned] (and unsigned arithmetic): reduction modulo 2^32. *)
Definition to_unsigned (z : Z) : Z := z mod modulus.

(** Conversion of an [unsigned] to [int]. *)
Definition to_int (z : Z) : Z :=
  let u := to_unsigned z in
  if u <? half_modulus then u else u - modulus.

Definition add (a b : Z) : Z := to_unsigned (a + b).
Definition sub (a b : Z) : Z := to_unsigned (a - b).
End Int32.

(** ** llvm::APInt *)

Module APInt.
Record t : Type := mk { getBitWidth : Z; getZExtValue : Z }.

#[global] Instance eq_dec : EqDecision t.
Proof. solve_decision. Defined.

(** A value of the class: at least one bit, payload within the width. *)
Definition wf (a : t) : Prop :=
  0 < getBitWidth a /\ 0 <= getZExtValue a < 2 ^ getBitWidth a.

(** [APInt(numBits, val)].  The constructor asserts [numBits != 0]
    ("We cannot create a zero bit APInt", XorPrimOp::fold) and keeps the
    low [numBits] bits of [val].  [None] is the failed assertion. *)
Definition make (numBits val : Z) : option t :=
  if numBits =? 0 then None else Some (mk numBits (val mod 2 ^ numBits)).

Definition isNullValue (a : t) : bool := getZExtValue a =? 0.
Definition isOneValue (a : t) : bool := getZExtValue a =? 1.

(** The payload read as a two's-complement number. *)
Definition getSExtValue (a : t) : Z :=
  if getZExtValue a <? 2 ^ (getBitWidth a - 1)
  then getZExtValue a
  else getZExtValue a - 2 ^ getBitWidth a.

(** [lshr(shiftAmt)]: asserts [shiftAmt <= BitWidth]. *)
Definition lshr (a : t) (shiftAmt : Z) : option t :=
  if getBitWidth a <? shiftAmt then None
  else Some (mk (getBitWidth a) (Z.shiftr (getZExtValue a) shiftAmt)).

(** [ashr(shiftAmt)]: asserts [shiftAmt <= BitWidth]; the sign bit is
    shifted in. *)
Definition ashr (a : t) (shiftAmt : Z) : option t :=
  if getBitWidth a <? shiftAmt then None
  else Some (mk (getBitWidth a)
                (Z.shiftr (getSExtValue a) shiftAmt mod 2 ^ getBitWidth a)).

(** [trunc(width)]: asserts [width < BitWidth] and [width != 0]. *)
Definition trunc (a : t) (width : Z) : option t :=
  if (width <? getBitWidth a) && negb (width =? 0)
  then Some (mk width (getZExtValue a mod 2 ^ width))
  else None.

Definition truncOrSelf (a : t) (width : Z) : option t :=
  if width <? getBitWidth a then trunc a width else Some a.

(** [operator^]: asserts equal bit widths. *)
Definition xor (a b : t) : option t :=
  if getBitWidth a =? getBitWidth b
  then Some (mk (getBitWidth a) (Z.lxor (getZExtValue a) (getZExtValue b)))
  else None.
End APInt.

(** ** Types, values and operations of the dialect *)

(** [IntType]: [SInt] or [UInt] with a width that may be unknown.  The class
    stores the width as a non-negative number or the sentinel -1. *)
Record IntType : Type := mkIntType { isSigned : bool; getWidth : option N }.

#[global] Instance IntType_eq_dec : EqDecision IntType.
Proof. solve_decision. Defined.

Definition isUnsigned (ty : IntType) : bool := negb (isSigned ty).

Definition getWidthOrSentinel (ty : IntType) : Z :=
  match getWidth ty with
  | Some w => Z.of_N w
  | None => -1
  end.

Definition hasWidth (ty : IntType) : bool :=
  match getWidth ty with Some _ => true | None => false end.

Definition UInt (w : N) : IntType := mkIntType false (Some w).
Definition SInt (w : N) : IntType := mkIntType true (Some w).

(** [mlir::Value]: a handle with an identity and a type.  [==] on values is
    identity. *)
Record Value : Type := mkValue { valueId : positive; getType : IntType }.

#[global] Instance Value_eq_dec : EqDecision Value.
Proof. solve_decision. Defined.

(** The operations the folds and patterns look at.  Every operation carries
    its declared result type first; integer attributes are the [uint32_t]
    the accessors return. *)
Inductive Operation : Type :=
| ConstantOp (ty : IntType) (value : APInt.t)
| DivPrimOp (ty : IntType) (lhs rhs : Value)
| XorPrimOp (ty : IntType) (lhs rhs : Value)
| AsSIntPrimOp (ty : IntType) (input : Value)
| AsUIntPrimOp (ty : IntType) (input : Value)
| CatPrimOp (ty : IntType) (lhs rhs : Value)
| BitsPrimOp (ty : IntType) (input : Value) (hi lo : Z)
| HeadPrimOp (ty : IntType) (input : Value) (amount : Z)
| TailPrimOp (ty : IntType) (input : Value) (amount : Z)
| ShrPrimOp (ty : IntType) (input : Value) (amount : Z).

#[global] Instance Operation_eq_dec : EqDecision Operation.
Proof. solve_decision. Defined.

Definition opType (op : Operation) : IntType :=
  match op with
  | ConstantOp ty _ | DivPrimOp ty _ _ | XorPrimOp ty _ _
  | AsSIntPrimOp ty _ | AsUIntPrimOp ty _ | CatPrimOp ty _ _
  | BitsPrimOp ty _ _ _ | HeadPrimOp ty _ _ | TailPrimOp ty _ _
  | ShrPrimOp ty _ _ => ty
  end.

(** The IR: the defining operation of every value that is an operation
    result.  Values without an entry are block arguments. *)
Abbreviation Graph := (gmap positive Operation).

Definition getDefiningOp (g : Graph) (v : Value) : option Operation :=
  g !! valueId v.

(** [matchPattern(v, m_FConstant(value))]: the payload when [v] is defined by
    a [ConstantOp]. *)
Definition m_FConstant (g : Graph) (v : Value) : option APInt.t :=
  match getDefiningOp g v with
  | Some (ConstantOp _ value) => Some value
  | _ => None
  end.

(** ** Fold hooks *)

Inductive Attribute : Type :=
| IntegerAttr (value : APInt.t).

Definition getIntAttr (value : APInt.t) : Attribute := IntegerAttr value.

(** [OpFoldResult]: null, an existing value, or a constant attribute. *)
Inductive OpFoldResult : Type :=
| NoFold
| FoldValue (v : Value)
| FoldAttr (a : Attribute).

(** [IntegerAttr::get(IntegerType::get(ctx, width), value)] builds the
    [APInt] of that width. *)
Definition IntegerAttr_get (width value : Z) : option Attribute :=
  a ← APInt.make (Int32.to_unsigned width) value; Some (IntegerAttr a).

(** [constFoldBinaryOp<IntegerAttr>]: both operands constant attributes of one
    type. *)
Definition constFoldBinaryOp (operands : list (option Attribute))
    (calculate : APInt.t -> APInt.t -> option APInt.t) : option OpFoldResult :=
  match operands with
  | [Some (IntegerAttr a); Some (IntegerAttr b)] =>
      if decide (APInt.getBitWidth a = APInt.getBitWidth b)
      then r ← calculate a b; Some (FoldAttr (IntegerAttr r))
      else Some NoFold
  | [_; _] => Some NoFold
  | _ => None
  end.

(** The fold hooks return [None] when an assertion of a library fires, and
    [Some] of the [OpFoldResult] otherwise. *)

Definition DivPrimOp_fold (g : Graph) (ty : IntType) (lhs rhs : Value)
    (operands : list (option Attribute)) : option OpFoldResult :=
  if decide (lhs = rhs) then
    let width := getWidthOrSentinel ty in
    let width := if width =? -1 then 2 else width in
    a ← IntegerAttr_get width 1; Some (FoldAttr a)
  else
    match m_FConstant g rhs with
    | Some value =>
        if APInt.isOneValue value && bool_decide (getType lhs = ty)
        then Some (FoldValue lhs)
        else Some NoFold
    | None => Some NoFold
    end.

(** The [xor(x, 0) -> x] rule of [XorPrimOp::fold], which is tried first: the
    right operand is the constant 0 and the left one has the result type. *)
Definition xorZeroRule (g : Graph) (ty : IntType) (lhs rhs : Value) : bool :=
  match m_FConstant g rhs with
  | Some value => APInt.isNullValue value && bool_decide (getType lhs = ty)
  | None => false
  end.

Definition XorPrimOp_fold (g : Graph) (ty : IntType) (lhs rhs : Value)
    (operands : list (option Attribute)) : option OpFoldResult :=
  if xorZeroRule g ty lhs rhs then Some (FoldValue lhs)
  else
    let width := Z.abs (getWidthOrSentinel ty) in
    if bool_decide (lhs = rhs) && negb (width =? 0) then
      a ← APInt.make width 0; Some (FoldAttr (getIntAttr a))
    else constFoldBinaryOp operands APInt.xor.

Definition ShrPrimOp_fold (g : Graph) (ty : IntType) (input : Value)
    (amount : Z) (operands : list (option Attribute)) : option OpFoldResult :=
  let inputType := getType input in
  let shiftAmount := Int32.to_int amount in
  if shiftAmount =? 0 then Some (FoldValue input)
  else
    let inputWidth := getWidthOrSentinel inputType in
    if inputWidth =? -1 then Some NoFold
    else if (inputWidth <=? shiftAmount) && isUnsigned inputType then
      a ← APInt.make 1 0; Some (FoldAttr (getIntAttr a))
    else
      match m_FConstant g input with
      | Some value =>
          value' ← (if negb (isSigned inputType)
                    then APInt.lshr value
                           (Int32.to_unsigned (Z.min shiftAmount inputWidth))
                    else APInt.ashr value
                           (Int32.to_unsigned (Z.min shiftAmount (inputWidth - 1))));
          let resultWidth := Z.max (inputWidth - shiftAmount) 1 in
          r ← APInt.truncOrSelf value' (Int32.to_unsigned resultWidth);
          Some (FoldAttr (getIntAttr r))
      | None => Some NoFold
      end.

Definition BitsPrimOp_fold (g : Graph) (ty : IntType) (input : Value)
    (hi lo : Z) (operands : list (option Attribute)) : option OpFoldResult :=
  let inputType := getType input in
  if bool_decide (inputType = ty) && negb (getWidthOrSentinel inputType =? -1)
  then Some (FoldValue input)
  else
    match (if hasWidth inputType then m_FConstant g input else None) with
    | Some value =>
        shifted ← APInt.lshr value lo;
        r ← APInt.truncOrSelf shifted (Int32.add (Int32.sub hi lo) 1);
        Some (FoldAttr (getIntAttr r))
    | None => Some NoFold
    end.

(** [ConstantOp::fold]: the value attribute. *)
Definition ConstantOp_fold (value : APInt.t) : OpFoldResult :=
  FoldAttr (getIntAttr value).

(** [AsSIntPrimOp::fold] and [AsUIntPrimOp::fold]: a constant operand is
    re-wrapped, the payload and its width unchanged. *)
Definition AsSIntPrimOp_fold (operands : list (option Attribute)) : OpFoldResult :=
  match operands with
  | Some (IntegerAttr value) :: _ => FoldAttr (getIntAttr value)
  | _ => NoFold
  end.

Definition AsUIntPrimOp_fold (operands : list (option Attribute)) : OpFoldResult :=
  match operands with
  | Some (IntegerAttr value) :: _ => FoldAttr (getIntAttr value)
  | _ => NoFold
  end.

(** ** The pattern rewriter *)

Inductive LogicalResult : Type := success | failure.

(** What the rewriter tells its listener: an operation was inserted under an
    id, or the root with an id was replaced by a value. *)
Inductive RewriteEvent : Type :=
| OpInserted (id : positive) (op : Operation)
| OpReplaced (id : positive) (value : Value).

(** The state a pattern works on: the IR, the next unused value id, and the
    trace of the rewriter's notifications, newest first. *)
Record PatternRewriter : Type := mkRewriter {
  ops : Graph;
  nextId : positive;
  trace : list RewriteEvent;
}.

Definition Rewrite (A : Type) : Type := PatternRewriter -> A * PatternRewriter.

Definition ret {A} (a : A) : Rewrite A := fun st => (a, st).

Definition bind {A B} (m : Rewrite A) (k : A -> Rewrite B) : Rewrite B :=
  fun st => let (a, st') := m st in k a st'.

Notation "x <- m ;; k" := (bind m (fun x => k))
  (at level 100, m at next level, right associativity).
Notation "m ;;; k" := (bind m (fun _ => k))
  (at level 100, right associativity).

(** [rewriter.create<Op>(...)]: the operation is inserted under a fresh id;
    its result is the new value. *)
Definition create (op : Operation) : Rewrite Value := fun st =>
  (mkValue (nextId st) (opType op),
   mkRewriter (<[nextId st := op]> (ops st)) (Pos.succ (nextId st))
              (OpInserted (nextId st) op :: trace st)).

(** Redirect the uses of the result of operation [old] to [new]. *)
Definition replaceUse (old : positive) (new v : Value) : Value :=
  if decide (valueId v = old) then new else v.

Definition replaceUsesIn (old : positive) (new : Value) (op : Operation) : Operation :=
  let f := replaceUse old new in
  match op with
  | ConstantOp ty value => ConstantOp ty value
  | DivPrimOp ty lhs rhs => DivPrimOp ty (f lhs) (f rhs)
  | XorPrimOp ty lhs rhs => XorPrimOp ty (f lhs) (f rhs)
  | AsSIntPrimOp ty input => AsSIntPrimOp ty (f input)
  | AsUIntPrimOp ty input => AsUIntPrimOp ty (f input)
  | CatPrimOp ty lhs rhs => CatPrimOp ty (f lhs) (f rhs)
  | BitsPrimOp ty input hi lo => BitsPrimOp ty (f input) hi lo
  | HeadPrimOp ty input amount => HeadPrimOp ty (f input) amount
  | TailPrimOp ty input amount => TailPrimOp ty (f input) amount
  | ShrPrimOp ty input amount => ShrPrimOp ty (f input) amount
  end.

(** [rewriter.replaceOp(op, value)]: every use of the result of [op] now uses
    [value], and [op] is erased. *)
Definition replaceOp (op : positive) (value : Value) : Rewrite unit := fun st =>
  (tt,
   mkRewriter (replaceUsesIn op value <$> delete op (ops st))
              (nextId st)
              (OpReplaced op value :: trace st)).

(** [rewriter.replaceOpWithNewOp<Op>(op, ...)]. *)
Definition replaceOpWithNewOp (op : positive) (newOp : Operation) : Rewrite unit :=
  v <- create newOp ;; replaceOp op v.

(** Modelled from the spec: the result type [BitsPrimOp]'s builder infers when
    none is given (the inference lives in FIRRTLOps.cpp, outside the folds):
    the slice [hi:lo] is inclusive, so it is the unsigned type of
    [hi - lo + 1] bits. *)
Definition BitsPrimOp_getResultType (input : IntType) (high low : Z) : IntType :=
  UInt (Z.to_N (high - low + 1)).

Definition create_BitsPrimOp (input : Value) (hi lo : Z) : Rewrite Value :=
  create (BitsPrimOp (BitsPrimOp_getResultType (getType input) hi lo) input hi lo).

(** [m_Constant(&attr)]: the attribute a constant operation folds to. *)
Definition m_Constant (g : Graph) (v : Value) : option Attribute :=
  match getDefiningOp g v with
  | Some (ConstantOp _ value) =>
      match ConstantOp_fold value with
      | FoldAttr a => Some a
      | _ => None
      end
  | _ => None
  end.

(** Modelled from the spec: the dialect's constant materialization hook
    (FIRRTLDialect::materializeConstant, outside the folds).  A constant
    operand of a reinterpretation is "reinterpreted with new signedness, width
    unchanged": the attribute a fold returned becomes the constant operation
    of the folded operation's result type with that payload. *)
Definition materializeConstant (a : Attribute) (ty : IntType) : Operation :=
  match a with
  | IntegerAttr value => ConstantOp ty value
  end.

(** [rewriter.createOrFold<Op>(loc, resType, value)] for the two casts: the
    cast is built, its fold hook is tried on the constant operands, and a
    folded attribute is materialized in place of the cast. *)
Definition createOrFold (mk : IntType -> Value -> Operation)
    (foldHook : list (option Attribute) -> OpFoldResult)
    (resType : IntType) (value : Value) : Rewrite Value := fun st =>
  match foldHook [m_Constant (ops st) value] with
  | NoFold => create (mk resType value) st
  | FoldValue v => (v, st)
  | FoldAttr a => create (materializeConstant a resType) st
  end.

(** ** Canonicalization patterns *)

Definition CatPrimOp_matchAndRewrite (op : positive) (ty : IntType)
    (lhs rhs : Value) : Rewrite LogicalResult := fun st =>
  match getDefiningOp (ops st) lhs, getDefiningOp (ops st) rhs with
  | Some (BitsPrimOp _ lhsInput lhsHi lhsLo),
    Some (BitsPrimOp _ rhsInput rhsHi rhsLo) =>
      if bool_decide (lhsInput = rhsInput) && (Int32.sub lhsLo 1 =? rhsHi)
      then (replaceOpWithNewOp op (BitsPrimOp ty lhsInput lhsHi rhsLo) ;;;
            ret success) st
      else (failure, st)
  | _, _ => (failure, st)
  end.

Definition BitsPrimOp_matchAndRewrite (op : positive) (ty : IntType)
    (input : Value) (hi lo : Z) : Rewrite LogicalResult := fun st =>
  match getDefiningOp (ops st) input with
  | Some (BitsPrimOp _ innerInput innerHi innerLo) =>
      let newLo := Int32.add lo innerLo in
      let newHi := Int32.sub (Int32.add newLo hi) lo in
      (replaceOpWithNewOp op
         (BitsPrimOp (BitsPrimOp_getResultType (getType innerInput) newHi newLo)
                     innerInput newHi newLo) ;;;
       ret success) st
  | _ => (failure, st)
  end.

(** [replaceWithBits(op, value, hiBit, loBit, rewriter)]; [resType] is the
    type of the result of [op]. *)
Definition replaceWithBits (op : positive) (resType : IntType) (value : Value)
    (hiBit loBit : Z) : Rewrite unit :=
  value <- (if decide (getWidth (getType value) = getWidth resType)
            then ret value
            else create_BitsPrimOp value hiBit loBit) ;;
  value <- (if isSigned resType && negb (isSigned (getType value))
            then createOrFold AsSIntPrimOp AsSIntPrimOp_fold resType value
            else if isUnsigned resType && negb (isUnsigned (getType value))
            then createOrFold AsUIntPrimOp AsUIntPrimOp_fold resType value
            else ret value) ;;
  replaceOp op value.

Definition HeadPrimOp_matchAndRewrite (op : positive) (ty : IntType)
    (input : Value) (amount : Z) : Rewrite LogicalResult :=
  let inputWidth := getWidthOrSentinel (getType input) in
  if inputWidth =? -1 then ret failure
  else
    let keepAmount := amount in
    (if negb (keepAmount =? 0)
     then replaceWithBits op ty input
            (Int32.to_unsigned (inputWidth - 1))
            (Int32.sub inputWidth keepAmount)
     else ret tt) ;;;
    ret success.

Definition ShrPrimOp_matchAndRewrite (op : positive) (ty : IntType)
    (input : Value) (amount : Z) : Rewrite LogicalResult :=
  let inputWidth := getWidthOrSentinel (getType input) in
  if inputWidth =? -1 then ret failure
  else
    let shiftAmount := amount in
    if inputWidth <=? Int32.to_int shiftAmount then
      if isUnsigned ty then ret failure
      else
        let shiftAmount := Int32.to_unsigned (inputWidth - 1) in
        replaceWithBits op ty input (Int32.to_unsigned (inputWidth - 1))
          shiftAmount ;;;
        ret success
    else
      replaceWithBits op ty input (Int32.to_unsigned (inputWidth - 1))
        shiftAmount ;;;
      ret success.

Definition TailPrimOp_matchAndRewrite (op : positive) (ty : IntType)
    (input : Value) (amount : Z) : Rewrite LogicalResult :=
  let inputWidth := getWidthOrSentinel (getType input) in
  if inputWidth =? -1 then ret failure
  else
    let dropAmount := amount in
    (if negb (dropAmount =? Int32.to_unsigned inputWidth)
     then replaceWithBits op ty input
            (Int32.sub (Int32.sub inputWidth dropAmount) 1) 0
     else ret tt) ;;;
    ret success.

(** The canonicalization of the operation with id [op], as the driver runs
    the pattern registered for its kind. *)
Definition canonicalize (op : positive) : Rewrite LogicalResult := fun st =>
  match ops st !! op with
  | Some (CatPrimOp ty lhs rhs) => CatPrimOp_matchAndRewrite op ty lhs rhs st
  | Some (BitsPrimOp ty input hi lo) =>
      BitsPrimOp_matchAndRewrite op ty input hi lo st
  | Some (HeadPrimOp ty input amount) =>
      HeadPrimOp_matchAndRewrite op ty input amount st
  | Some (ShrPrimOp ty input amount) =>
      ShrPrimOp_matchAndRewrite op ty input amount st
  | Some (TailPrimOp ty input amount) =>
      TailPrimOp_matchAndRewrite op ty input amount st
  | _ => (failure, st)
  end.


(** ** Reference definitions the properties are stated with *)

(** Constant operands handed to a fold hook are [APInt]s of at least one bit. *)
Definition operandsWf (operands : list (option Attribute)) : Prop :=
  forall a, In (Some (IntegerAttr a)) operands -> 0 < APInt.getBitWidth a.

(** The constant the fold of [shr] is to produce: logical shift for an
    unsigned payload, arithmetic shift capped at [w - 1] for a signed one, kept
    to [max (w - s) 1] bits. *)
Definition shrConstant (signed : bool) (w s : Z) (c : APInt.t) : APInt.t :=
  let resultWidth := Z.max (w - s) 1 in
  APInt.mk resultWidth
    ((if signed
      then Z.shiftr (APInt.getSExtValue c) (Z.min s (w - 1))
      else Z.shiftr (APInt.getZExtValue c) s) mod 2 ^ resultWidth).


(** The number of bits of the inclusive slice [hi:lo]. *)
Definition sliceWidth (hi lo : Z) : N := Z.to_N (hi - lo + 1).

(** Modelled from the spec: the declared result widths of the three
    operations that go through [replaceWithBits] (the dialect's type inference
    is in FIRRTLOps.cpp, outside the folds): take-head keeps the top [amount]
    bits, take-tail drops the top [amount] bits, and shift-right has
    [max (w - amount) 1] bits. *)
Definition HeadPrimOp_resultWidth (w : N) (amount : Z) : N := Z.to_N amount.
Definition TailPrimOp_resultWidth (w : N) (amount : Z) : N := Z.to_N (Z.of_N w - amount).
Definition ShrPrimOp_resultWidth (w : N) (amount : Z) : N :=
  Z.to_N (Z.max (Z.of_N w - amount) 1).

(** The value [replaceWithBits] goes on with after its first step: the input
    when it already has the width of the result, the new extract otherwise. *)
Definition slicedValue (st : PatternRewriter) (resType : IntType) (value : Value)
    (hi lo : Z) : Value :=
  if decide (getWidth (getType value) = getWidth resType) then value
  else mkValue (nextId st) (BitsPrimOp_getResultType (getType value) hi lo).

(** The events of that first step. *)
Definition slicedEvents (st : PatternRewriter) (resType : IntType) (value : Value)
    (hi lo : Z) : list RewriteEvent :=
  if decide (getWidth (getType value) = getWidth resType) then []
  else [OpInserted (nextId st)
          (BitsPrimOp (BitsPrimOp_getResultType (getType value) hi lo) value hi lo)].

(** The id the next created operation gets after that first step. *)
Definition slicedNextId (st : PatternRewriter) (resType : IntType) (value : Value) : positive :=
  if decide (getWidth (getType value) = getWidth resType) then nextId st
  else Pos.succ (nextId st).

(** The operation the second step of [replaceWithBits] inserts when the
    signedness of the result differs: the reinterpretation cast to [resType],
    or, when the value cast is a constant of the IR, that constant at type
    [resType]. *)
Definition castOperation (st : PatternRewriter) (resType : IntType) (value : Value)
    (hi lo : Z) : Operation :=
  let sliced := slicedValue st resType value hi lo in
  match (if decide (getWidth (getType value) = getWidth resType)
         then m_FConstant (ops st) value else None) with
  | Some c => ConstantOp resType c
  | None => if isSigned resType then AsSIntPrimOp resType sliced
            else AsUIntPrimOp resType sliced
  end.

(** The value [replaceWithBits] replaces the operation with. *)
Definition replacementValue (st : PatternRewriter) (resType : IntType) (value : Value)
    (hi lo : Z) : Value :=
  let sliced := slicedValue st resType value hi lo in
  if eqb (isSigned resType) (isSigned (getType sliced)) then sliced
  else mkValue (slicedNextId st resType value) resType.

(** The events of the second step. *)
Definition castEvents (st : PatternRewriter) (resType : IntType) (value : Value)
    (hi lo : Z) : list RewriteEvent :=
  let sliced := slicedValue st resType value hi lo in
  if eqb (isSigned resType) (isSigned (getType sliced)) then []
  else [OpInserted (slicedNextId st resType value) (castOperation st resType value hi lo)].

(** [coerced op ty value hi lo st st']: from [st] to [st'] the operation [op]
    of result type [ty] was replaced through the coercion of the slice [hi:lo]
    of [value]: the listener saw the extract and the cast that were needed and
    then the replacement, and the replacement has type [ty]. *)
Definition coerced (op : positive) (ty : IntType) (value : Value) (hi lo : Z)
    (st st' : PatternRewriter) : Prop :=
  trace st' = OpReplaced op (replacementValue st ty value hi lo)
                :: castEvents st ty value hi lo
                ++ slicedEvents st ty value hi lo ++ trace st /\
  getType (replacementValue st ty value hi lo) = ty.

(** An event that inserts a reinterpretation cast. *)
Definition insertsCast (e : RewriteEvent) : bool :=
  match e with
  | OpInserted _ (AsSIntPrimOp _ _) | OpInserted _ (AsUIntPrimOp _ _) => true
  | _ => false
  end.

(** ** Concrete IR *)

Module Examples.
(** An 8-bit unsigned block argument and a value of unknown width. *)
Definition x8 : Value := mkValue 1 (UInt 8).
Definition s8 : Value := mkValue 1 (SInt 8).
Definition x0 : Value := mkValue 1 (UInt 0).
Definition xu : Value := mkValue 1 (mkIntType false None).

(** [%2 = bits(x, 7, 4); %3 = bits(%2, 2, 1)] *)
Definition nestedBits : PatternRewriter :=
  mkRewriter (<[3%positive := BitsPrimOp (UInt 2) (mkValue 2 (UInt 4)) 2 1]>
               (<[2%positive := BitsPrimOp (UInt 4) x8 7 4]> ∅)) 4 [].

(** [%2 = bits(x, 7, 4); %3 = bits(x, 3, 0); %4 = cat(%2, %3)] *)
Definition catBits : PatternRewriter :=
  mkRewriter (<[4%positive := CatPrimOp (UInt 8) (mkValue 2 (UInt 4)) (mkValue 3 (UInt 4))]>
               (<[3%positive := BitsPrimOp (UInt 4) x8 3 0]>
                 (<[2%positive := BitsPrimOp (UInt 4) x8 7 4]> ∅))) 5 [].

(** [%2 = head(x, 0)] *)
Definition headZero : PatternRewriter :=
  mkRewriter (<[2%positive := HeadPrimOp (UInt 0) x8 0]> ∅) 3 [].

(** [%2 = tail(x, 8)] *)
Definition tailFull : PatternRewriter :=
  mkRewriter (<[2%positive := TailPrimOp (UInt 0) x8 8]> ∅) 3 [].

(** [%2 = head(s, 3)], [%2 = tail(s, 3)], [%2 = shr(s, 3)] and [%2 = shr(s, 9)]
    on a signed 8-bit [s]. *)
Definition headThree : PatternRewriter :=
  mkRewriter (<[2%positive := HeadPrimOp (UInt 3) s8 3]> ∅) 3 [].
Definition tailThree : PatternRewriter :=
  mkRewriter (<[2%positive := TailPrimOp (UInt 5) s8 3]> ∅) 3 [].
Definition shrThree : PatternRewriter :=
  mkRewriter (<[2%positive := ShrPrimOp (SInt 5) s8 3]> ∅) 3 [].
Definition shrNine : PatternRewriter :=
  mkRewriter (<[2%positive := ShrPrimOp (SInt 1) s8 9]> ∅) 3 [].

(** [%2 = shr(x, 9)] on the unsigned 8-bit [x]. *)
Definition shrNineU : PatternRewriter :=
  mkRewriter (<[2%positive := ShrPrimOp (UInt 1) x8 9]> ∅) 3 [].

(** [%1 = constant 10 : sint<4>] *)
Definition constTen : Graph := <[1%positive := ConstantOp (SInt 4) (APInt.mk 4 10)]> ∅.
Definition c4 : Value := mkValue 1 (SInt 4).

(** [%1 = constant 10 : sint<4>; %2 = tail(%1, 0) : uint<4>] *)
Definition tailConstant : PatternRewriter :=
  mkRewriter (<[2%positive := TailPrimOp (UInt 4) c4 0]> constTen) 3 [].

(** [%2 = shr(s, 1) : sint<1>] on a signed block argument [s] of zero bits. *)
Definition s0 : Value := mkValue 1 (SInt 0).
Definition shrZeroWidth : PatternRewriter :=
  mkRewriter (<[2%positive := ShrPrimOp (SInt 1) s0 1]> ∅) 3 [].
End Examples.

(** ** The other fold hooks of the file *)

(** Further [APInt] operations the hooks use.  [operator&], [operator|] and
    [operator==] assert equal bit widths; [zext] and [sext] assert a strictly
    larger width; [shl] asserts [shiftAmt <= BitWidth]. *)
Definition APInt_isAllOnesValue (a : APInt.t) : bool :=
  APInt.getZExtValue a =? 2 ^ APInt.getBitWidth a - 1.

Definition APInt_and (a b : APInt.t) : option APInt.t :=
  if APInt.getBitWidth a =? APInt.getBitWidth b
  then Some (APInt.mk (APInt.getBitWidth a)
               (Z.land (APInt.getZExtValue a) (APInt.getZExtValue b)))
  else None.

Definition APInt_or (a b : APInt.t) : option APInt.t :=
  if APInt.getBitWidth a =? APInt.getBitWidth b
  then Some (APInt.mk (APInt.getBitWidth a)
               (Z.lor (APInt.getZExtValue a) (APInt.getZExtValue b)))
  else None.

Definition APInt_eq (a b : APInt.t) : option bool :=
  if APInt.getBitWidth a =? APInt.getBitWidth b
  then Some (APInt.getZExtValue a =? APInt.getZExtValue b)
  else None.

Definition APInt_zext (a : APInt.t) (width : Z) : option APInt.t :=
  if APInt.getBitWidth a <? width
  then Some (APInt.mk width (APInt.getZExtValue a))
  else None.

Definition APInt_sext (a : APInt.t) (width : Z) : option APInt.t :=
  if APInt.getBitWidth a <? width
  then Some (APInt.mk width (APInt.getSExtValue a mod 2 ^ width))
  else None.

Definition APInt_shl (a : APInt.t) (shiftAmt : Z) : option APInt.t :=
  if APInt.getBitWidth a <? shiftAmt then None
  else Some (APInt.mk (APInt.getBitWidth a)
               (Z.shiftl (APInt.getZExtValue a) shiftAmt mod 2 ^ APInt.getBitWidth a)).

(** [APInt(1, b)] for a [bool] [b]. *)
Definition APInt_ofBool (b : bool) : option APInt.t :=
  APInt.make 1 (if b then 1 else 0).

Definition AndPrimOp_fold (g : Graph) (ty : IntType) (lhs rhs : Value)
    (operands : list (option Attribute)) : option OpFoldResult :=
  let rhsIs (p : APInt.t -> bool) :=
    match m_FConstant g rhs with Some value => p value | None => false end in
  if rhsIs APInt.isNullValue && bool_decide (getType rhs = ty)
  then Some (FoldValue rhs)
  else if rhsIs APInt_isAllOnesValue && bool_decide (getType lhs = ty)
          && bool_decide (getType rhs = ty)
  then Some (FoldValue lhs)
  else if bool_decide (lhs = rhs) && bool_decide (getType rhs = ty)
  then Some (FoldValue rhs)
  else constFoldBinaryOp operands APInt_and.

Definition OrPrimOp_fold (g : Graph) (ty : IntType) (lhs rhs : Value)
    (operands : list (option Attribute)) : option OpFoldResult :=
  let rhsIs (p : APInt.t -> bool) :=
    match m_FConstant g rhs with Some value => p value | None => false end in
  if rhsIs APInt.isNullValue && bool_decide (getType lhs = ty)
  then Some (FoldValue lhs)
  else if rhsIs APInt_isAllOnesValue && bool_decide (getType rhs = ty)
          && bool_decide (getType lhs = ty)
  then Some (FoldValue rhs)
  else if bool_decide (lhs = rhs) && bool_decide (getType rhs = ty)
  then Some (FoldValue rhs)
  else constFoldBinaryOp operands APInt_or.

(** The constant of the left operand when both operands are constants of one
    bit width: the test that guards the constant fold of [eq] and [neq]. *)
Definition matchingLhsConstant (g : Graph) (lhs : Value) (value : APInt.t)
    : option APInt.t :=
  match m_FConstant g lhs with
  | Some lhsCst =>
      if APInt.getBitWidth value =? APInt.getBitWidth lhsCst then Some lhsCst
      else None
  | None => None
  end.

Definition EQPrimOp_fold (g : Graph) (ty : IntType) (lhs rhs : Value)
    (operands : list (option Attribute)) : option OpFoldResult :=
  match m_FConstant g rhs with
  | Some value =>
      match matchingLhsConstant g lhs value with
      | Some lhsCst =>
          b ← APInt_eq value lhsCst;
          a ← APInt_ofBool b;
          Some (FoldAttr (getIntAttr a))
      | None =>
          if APInt_isAllOnesValue value && bool_decide (getType lhs = ty)
             && bool_decide (getType rhs = ty)
          then Some (FoldValue lhs)
          else Some NoFold
      end
  | None => Some NoFold
  end.

Definition NEQPrimOp_fold (g : Graph) (ty : IntType) (lhs rhs : Value)
    (operands : list (option Attribute)) : option OpFoldResult :=
  match m_FConstant g rhs with
  | Some value =>
      match matchingLhsConstant g lhs value with
      | Some lhsCst =>
          b ← APInt_eq value lhsCst;
          a ← APInt_ofBool (negb b);
          Some (FoldAttr (getIntAttr a))
      | None =>
          if APInt.isNullValue value && bool_decide (getType lhs = ty)
             && bool_decide (getType rhs = ty)
          then Some (FoldValue lhs)
          else Some NoFold
      end
  | None => Some NoFold
  end.

(** The [mux(0/1, x, y)] rule: the branch a constant selector picks, when
    that branch has the result type. *)
Definition muxConstantSelector (g : Graph) (ty : IntType) (sel high low : Value)
    : option Value :=
  match m_FConstant g sel with
  | Some value =>
      if APInt.isNullValue value && bool_decide (getType low = ty) then Some low
      else if negb (APInt.isNullValue value) && bool_decide (getType high = ty)
      then Some high
      else None
  | None => None
  end.

Definition MuxPrimOp_fold (g : Graph) (ty : IntType) (sel high low : Value)
    (operands : list (option Attribute)) : option OpFoldResult :=
  match muxConstantSelector g ty sel high low with
  | Some v => Some (FoldValue v)
  | None =>
      if decide (high = low) then Some (FoldValue high)
      else
        match m_FConstant g low with
        | Some value =>
            match m_FConstant g high with
            | Some c1 =>
                if APInt.isOneValue c1 && APInt.isNullValue value
                   && bool_decide (ty = getType sel)
                then Some (FoldValue sel)
                else Some NoFold
            | None => Some NoFold
            end
        | None => Some NoFold
        end
  end.

Definition PadPrimOp_fold (g : Graph) (ty : IntType) (input : Value)
    (amount : Z) (operands : list (option Attribute)) : option OpFoldResult :=
  if decide (getType input = ty) then Some (FoldValue input)
  else
    let inputType := getType input in
    let width := getWidthOrSentinel inputType in
    if width =? -1 then Some NoFold
    else
      match m_FConstant g input with
      | Some value =>
          let destWidth := getWidthOrSentinel ty in
          if destWidth =? -1 then Some NoFold
          else
            r ← (if isSigned inputType
                 then APInt_sext value (Int32.to_unsigned destWidth)
                 else APInt_zext value (Int32.to_unsigned destWidth));
            Some (FoldAttr (getIntAttr r))
      | None => Some NoFold
      end.

Definition ShlPrimOp_fold (g : Graph) (ty : IntType) (input : Value)
    (amount : Z) (operands : list (option Attribute)) : option OpFoldResult :=
  let inputType := getType input in
  let shiftAmount := Int32.to_int amount in
  if shiftAmount =? 0 then Some (FoldValue input)
  else
    match m_FConstant g input with
    | Some value =>
        let inputWidth := getWidthOrSentinel inputType in
        if negb (inputWidth =? -1) then
          let resultWidth := inputWidth + shiftAmount in
          let shiftAmount := Z.min shiftAmount resultWidth in
          extended ← APInt_zext value (Int32.to_unsigned resultWidth);
          r ← APInt_shl extended (Int32.to_unsigned shiftAmount);
          Some (FoldAttr (getIntAttr r))
        else Some NoFold
    | None => Some NoFold
    end.

(** *** Conversions

    The folds of the four cast operations only compare types and look at the
    kind of the operation that defines the operand, on types that need not be
    integers (standard integers, analog and inout types, passive and
    non-passive aggregates): they are written over any type with a decidable
    equality. *)

Inductive CastKind : Type :=
| StdIntCastOp | AnalogInOutCastOp | AsPassivePrimOp | AsNonPassivePrimOp.

#[global] Instance CastKind_eq_dec : EqDecision CastKind.
Proof. solve_decision. Defined.

Section Conversions.
Context {Ty : Type} `{EqDecision Ty}.

Record CastValue : Type := mkCastValue { castValueId : positive; castType : Ty }.

(** A cast operation: its kind, its result type and its operand. *)
Record CastOperation : Type := mkCast {
  castKind : CastKind;
  castResultType : Ty;
  getOperand : CastValue;
}.

Definition castDefiningOp (g : gmap positive CastOperation) (v : CastValue)
    : option CastOperation :=
  g !! castValueId v.

(** [dyn_cast_or_null<Kind>(v.getDefiningOp())] followed by the test
    [castInput.getOperand().getType() == getType()]. *)
Definition undoneCast (g : gmap positive CastOperation) (kind : CastKind)
    (ty : Ty) (v : CastValue) : option CastValue :=
  match castDefiningOp g v with
  | Some castInput =>
      if bool_decide (castKind castInput = kind)
         && bool_decide (castType (getOperand castInput) = ty)
      then Some (getOperand castInput)
      else None
  | None => None
  end.

Definition StdIntCastOp_fold (g : gmap positive CastOperation) (ty : Ty)
    (operand : CastValue) : option CastValue :=
  undoneCast g StdIntCastOp ty operand.

Definition AnalogInOutCastOp_fold (g : gmap positive CastOperation) (ty : Ty)
    (operand : CastValue) : option CastValue :=
  undoneCast g AnalogInOutCastOp ty operand.

Definition AsPassivePrimOp_fold (g : gmap positive CastOperation) (ty : Ty)
    (operand : CastValue) : option CastValue :=
  if decide (castType operand = ty) then Some operand
  else undoneCast g AsNonPassivePrimOp ty operand.

Definition AsNonPassivePrimOp_fold (g : gmap positive CastOperation) (ty : Ty)
    (operand : CastValue) : option CastValue :=
  undoneCast g AsPassivePrimOp ty operand.

(** The fold hook of a cast operation, by its kind. *)
Definition castFold (g : gmap positive CastOperation) (op : CastOperation)
    : option CastValue :=
  match castKind op with
  | StdIntCastOp => StdIntCastOp_fold g (castResultType op) (getOperand op)
  | AnalogInOutCastOp => AnalogInOutCastOp_fold g (castResultType op) (getOperand op)
  | AsPassivePrimOp => AsPassivePrimOp_fold g (castResultType op) (getOperand op)
  | AsNonPassivePrimOp => AsNonPassivePrimOp_fold g (castResultType op) (getOperand op)
  end.
End Conversions.

Arguments CastValue Ty : clear implicits.
Arguments CastOperation Ty : clear implicits.

(** ** Reference definitions of the further properties *)

(** The constant a fold result stands for: the attribute, or the payload of
    the constant operation that defines the returned value. *)
Definition foldedConstant (g : Graph) (r : OpFoldResult) : option APInt.t :=
  match r with
  | NoFold => None
  | FoldValue v => m_FConstant g v
  | FoldAttr (IntegerAttr c) => Some c
  end.

(** The bits [hi:lo] of a payload, as an [APInt] of [hi - lo + 1] bits. *)
Definition bitsConstant (c : APInt.t) (hi lo : Z) : APInt.t :=
  APInt.mk (hi - lo + 1)
    (Z.shiftr (APInt.getZExtValue c) lo mod 2 ^ (hi - lo + 1)).

(** The low bound of the slice the pattern of [ShrPrimOp] asks for. *)
Definition shrSliceLo (w amount : Z) : Z :=
  if amount <? w then amount else w - 1.

(** An event that, if it inserts an extract, inserts a well-formed one: a
    slice [hi:lo] of [input] with [0 <= lo <= hi < w], declared with the
    unsigned type of [hi - lo + 1] bits. *)
Definition insertsValidExtract (input : Value) (w : Z) (e : RewriteEvent) : Prop :=
  match e with
  | OpInserted _ (BitsPrimOp ty x hi lo) =>
      x = input /\ 0 <= lo <= hi /\ hi < w /\ ty = UInt (sliceWidth hi lo)
  | _ => True
  end.

(** The constant operands the driver hands to the fold hook of a binary
    operation: for each operand, the attribute of the constant that defines
    it, if any. *)
Definition constOperands (g : Graph) (lhs rhs : Value) : list (option Attribute) :=
  [m_Constant g lhs; m_Constant g rhs].

(** The cast a cast operation undoes: a standard-integer or analog cast
    undoes one of its own kind, the passive and non-passive casts undo each
    other. *)
Definition inverseCast (kind : CastKind) : CastKind :=
  match kind with
  | StdIntCastOp => StdIntCastOp
  | AnalogInOutCastOp => AnalogInOutCastOp
  | AsPassivePrimOp => AsNonPassivePrimOp
  | AsNonPassivePrimOp => AsPassivePrimOp
  end.

(** Casts over types named by numbers: [%2 = asNonPassive(%1 : 7) : 9] and
    [%3 = asPassive(%2) : 7]. *)
Definition exampleCasts : gmap positive (CastOperation nat) :=
  <[3%positive := mkCast AsPassivePrimOp 7%nat (mkCastValue 2 9%nat)]>
    (<[2%positive := mkCast AsNonPassivePrimOp 9%nat (mkCastValue 1 7%nat)]> ∅).



(** The operands of an operation. *)
Definition operandsOf (op : Operation) : list Value :=
  match op with
  | ConstantOp _ _ => []
  | DivPrimOp _ lhs rhs | XorPrimOp _ lhs rhs | CatPrimOp _ lhs rhs => [lhs; rhs]
  | AsSIntPrimOp _ input | AsUIntPrimOp _ input
  | BitsPrimOp _ input _ _ | HeadPrimOp _ input _ | TailPrimOp _ input _
  | ShrPrimOp _ input _ => [input]
  end.

(** No operation of the IR has the result of operation [id] as an operand. *)
Definition unused (id : positive) (g : Graph) : Prop :=
  forall j o u, g !! j = Some o -> In u (operandsOf o) -> valueId u <> id.

(** The next id of the rewriter, and every id after it, is not in use. *)
Definition fresh (st : PatternRewriter) : Prop :=
  forall i, (nextId st <= i)%positive -> ops st !! i = None.

(** ** Concrete IR for the folds *)

Module FoldExamples.
(** [%1 = constant 12 : uint<4>], [%2 = constant 10 : uint<4>],
    [%3 = constant 1 : uint<8>], [%4 = constant 0 : uint<8>],
    [%5 = constant 1 : uint<1>], [%6 = constant 0 : uint<1>],
    [%7 = constant 181 : uint<8>]. *)
Definition constants : Graph :=
  <[7%positive := ConstantOp (UInt 8) (APInt.mk 8 181)]>
  (<[6%positive := ConstantOp (UInt 1) (APInt.mk 1 0)]>
  (<[5%positive := ConstantOp (UInt 1) (APInt.mk 1 1)]>
  (<[4%positive := ConstantOp (UInt 8) (APInt.mk 8 0)]>
  (<[3%positive := ConstantOp (UInt 8) (APInt.mk 8 1)]>
  (<[2%positive := ConstantOp (UInt 4) (APInt.mk 4 10)]>
  (<[1%positive := ConstantOp (UInt 4) (APInt.mk 4 12)]> ∅)))))).

Definition twelve : Value := mkValue 1 (UInt 4).
Definition ten : Value := mkValue 2 (UInt 4).
Definition one8 : Value := mkValue 3 (UInt 8).
Definition zero8 : Value := mkValue 4 (UInt 8).
Definition one1 : Value := mkValue 5 (UInt 1).
Definition zero1 : Value := mkValue 6 (UInt 1).
Definition c181 : Value := mkValue 7 (UInt 8).

(** Block arguments: an 8-bit [x], another 8-bit [y] and a 1-bit [b]. *)
Definition x : Value := mkValue 10 (UInt 8).
Definition y : Value := mkValue 11 (UInt 8).
Definition b : Value := mkValue 12 (UInt 1).

(** The folded inner extract [bits(%7, 7, 4)]: [%8 = constant 11 : uint<4>]. *)
Definition folded : Graph := <[8%positive := ConstantOp (UInt 4) (APInt.mk 4 11)]> ∅.
Definition eleven : Value := mkValue 8 (UInt 4).
End FoldExamples.
(** * Properties *)

(** ** Machine integers and APInt *)

Lemma to_unsigned_small (z : Z) : 0 <= z < 2 ^ 32 -> Int32.to_unsigned z = z.
Proof. intros H. unfold Int32.to_unsigned, Int32.modulus. apply Z.mod_small, H. Qed.

Lemma to_int_small (z : Z) : 0 <= z < 2 ^ 31 -> Int32.to_int z = z.
Proof.
  intros H. unfold Int32.to_int, Int32.half_modulus.
  rewrite to_unsigned_small by lia.
  destruct (Z.ltb_spec z (2 ^ 31)); lia.
Qed.

Lemma make_nonzero (w v : Z) :
  w <> 0 -> APInt.make w v = Some (APInt.mk w (v mod 2 ^ w)).
Proof. intros H. unfold APInt.make. destruct (Z.eqb_spec w 0); [lia | reflexivity]. Qed.

Lemma lshr_ok (a : APInt.t) (n : Z) :
  n <= APInt.getBitWidth a ->
  APInt.lshr a n = Some (APInt.mk (APInt.getBitWidth a) (Z.shiftr (APInt.getZExtValue a) n)).
Proof. intros H. unfold APInt.lshr. destruct (Z.ltb_spec (APInt.getBitWidth a) n); [lia | reflexivity]. Qed.

Lemma ashr_ok (a : APInt.t) (n : Z) :
  n <= APInt.getBitWidth a ->
  APInt.ashr a n =
    Some (APInt.mk (APInt.getBitWidth a)
            (Z.shiftr (APInt.getSExtValue a) n mod 2 ^ APInt.getBitWidth a)).
Proof. intros H. unfold APInt.ashr. destruct (Z.ltb_spec (APInt.getBitWidth a) n); [lia | reflexivity]. Qed.

Lemma truncOrSelf_lt (a : APInt.t) (n : Z) :
  0 < n < APInt.getBitWidth a ->
  APInt.truncOrSelf a n = Some (APInt.mk n (APInt.getZExtValue a mod 2 ^ n)).
Proof.
  intros H. unfold APInt.truncOrSelf, APInt.trunc.
  destruct (Z.ltb_spec n (APInt.getBitWidth a)); [| lia].
  destruct (Z.eqb_spec n 0); [lia | reflexivity].
Qed.

Lemma truncOrSelf_ge (a : APInt.t) (n : Z) :
  APInt.getBitWidth a <= n -> APInt.truncOrSelf a n = Some a.
Proof.
  intros H. unfold APInt.truncOrSelf.
  destruct (Z.ltb_spec n (APInt.getBitWidth a)); [lia | reflexivity].
Qed.

Lemma getWidthOrSentinel_known (ty : IntType) (w : N) :
  getWidth ty = Some w -> getWidthOrSentinel ty = Z.of_N w.
Proof. unfold getWidthOrSentinel. now intros ->. Qed.

Lemma getWidthOrSentinel_unknown (ty : IntType) :
  getWidth ty = None -> getWidthOrSentinel ty = -1.
Proof. unfold getWidthOrSentinel. now intros ->. Qed.

Lemma getWidthOrSentinel_ge (ty : IntType) : -1 <= getWidthOrSentinel ty.
Proof. unfold getWidthOrSentinel. destruct (getWidth ty); lia. Qed.

(** ** div(x, x) *)


(** C1 (failing input): the fold hook of [div(x, x)] whose result type is zero
    bits wide asks for a zero-bit constant of value 1, which does not exist:
    the construction of the [APInt] fails and no constant 1 is returned. *)
Theorem DivPrimOp_fold_self_zero_width (g : Graph) (signed : bool) (x : Value)
    (operands : list (option Attribute)) :
  DivPrimOp_fold g (mkIntType signed (Some 0%N)) x x operands = None.
Proof.
  unfold DivPrimOp_fold.
  destruct (decide (x = x)) as [_ | Hne]; [reflexivity | congruence].
Qed.

(** ** xor(x, x) *)

Lemma constFoldBinaryOp_xor_width (operands : list (option Attribute)) (a : APInt.t) :
  operandsWf operands ->
  constFoldBinaryOp operands APInt.xor = Some (FoldAttr (IntegerAttr a)) ->
  0 < APInt.getBitWidth a.
Proof.
  intros Hwf. unfold constFoldBinaryOp.
  destruct operands as [| [[x] |] [| [[y] |] [|]]]; try discriminate.
  destruct (decide _) as [E | E]; [| discriminate].
  unfold APInt.xor. rewrite E, Z.eqb_refl. cbn.
  intros [= <-]. cbn. rewrite <- E. apply Hwf. now left.
Qed.

Lemma constFoldBinaryOp_xor_runs (operands : list (option Attribute)) :
  length operands = 2%nat -> constFoldBinaryOp operands APInt.xor <> None.
Proof.
  unfold constFoldBinaryOp.
  destruct operands as [| [[x] |] [| [[y] |] [|]]]; try discriminate; intros _;
    try discriminate.
  destruct (decide _) as [E | E]; [| discriminate].
  unfold APInt.xor. rewrite E, Z.eqb_refl. discriminate.
Qed.

(** C6: for an xor of a value with itself, (1) when the result width is a
    known [w > 0] the fold is the [w]-bit constant 0 (unless [x] is itself the
    constant 0 of the result type, which the [xor(x, 0)] rule returns as it
    is); (2) when the result width is 0 the self-xor fold is skipped: the
    hook hands over to the bitwise constant fold; (3) no attribute the hook
    returns is zero bits wide, and the hook does not fail. *)
Theorem XorPrimOp_fold_self (g : Graph) (ty : IntType) (x : Value)
    (operands : list (option Attribute)) :
  (forall w, getWidth ty = Some w -> (0 < w)%N ->
     XorPrimOp_fold g ty x x operands =
       if xorZeroRule g ty x x then Some (FoldValue x)
       else Some (FoldAttr (IntegerAttr (APInt.mk (Z.of_N w) 0)))) /\
  (getWidth ty = Some 0%N ->
     XorPrimOp_fold g ty x x operands =
       if xorZeroRule g ty x x then Some (FoldValue x)
       else constFoldBinaryOp operands APInt.xor) /\
  (operandsWf operands ->
     forall a, XorPrimOp_fold g ty x x operands = Some (FoldAttr (IntegerAttr a)) ->
               0 < APInt.getBitWidth a) /\
  (length operands = 2%nat -> XorPrimOp_fold g ty x x operands <> None).
Proof.
  unfold XorPrimOp_fold. fold (xorZeroRule g ty x x).
  rewrite bool_decide_eq_true_2 by reflexivity. cbn [andb].
  pose proof (getWidthOrSentinel_ge ty) as Hge.
  repeat split.
  - intros w Hw Hpos. rewrite (getWidthOrSentinel_known _ _ Hw).
    destruct (xorZeroRule g ty x x); [reflexivity |].
    destruct (Z.eqb_spec (Z.abs (Z.of_N w)) 0) as [E | E]; [lia |]. cbn [negb].
    rewrite make_nonzero by assumption. cbn.
    rewrite Z.abs_eq by lia. reflexivity.
  - intros Hw. rewrite (getWidthOrSentinel_known _ _ Hw). reflexivity.
  - intros Hwf a. destruct (xorZeroRule g ty x x); [discriminate |].
    destruct (Z.eqb_spec (Z.abs (getWidthOrSentinel ty)) 0) as [E | E]; cbn [negb].
    + apply constFoldBinaryOp_xor_width, Hwf.
    + rewrite make_nonzero by assumption. cbn. intros [= <-]. cbn. lia.
  - intros Hlen. destruct (xorZeroRule g ty x x); [discriminate |].
    destruct (Z.eqb_spec (Z.abs (getWidthOrSentinel ty)) 0) as [E | E]; cbn [negb].
    + now apply constFoldBinaryOp_xor_runs.
    + rewrite make_nonzero by assumption. discriminate.
Qed.

(** ** shr *)

Lemma shiftr_small (c s w : Z) :
  0 <= c < 2 ^ w -> 0 <= w <= s -> Z.shiftr c s = 0.
Proof.
  intros Hc Hs. rewrite Z.shiftr_div_pow2 by lia.
  apply Z.div_small. split; [lia |].
  apply Z.lt_le_trans with (2 ^ w); [lia |].
  apply Z.pow_le_mono_r; lia.
Qed.

Lemma mod_pow2_mod_pow2 (a n m : Z) :
  0 <= n <= m -> (a mod 2 ^ m) mod 2 ^ n = a mod 2 ^ n.
Proof.
  intros H. apply Z.mod_mod_divide.
  exists (2 ^ (m - n)). rewrite <- Z.pow_add_r by lia. f_equal. lia.
Qed.

Lemma getSExtValue_mod (c : APInt.t) :
  APInt.wf c -> APInt.getSExtValue c mod 2 ^ APInt.getBitWidth c = APInt.getZExtValue c.
Proof.
  intros [Hpos Hr]. unfold APInt.getSExtValue.
  destruct (Z.ltb_spec (APInt.getZExtValue c) (2 ^ (APInt.getBitWidth c - 1))).
  - apply Z.mod_small. assumption.
  - replace (APInt.getZExtValue c - 2 ^ APInt.getBitWidth c)
      with (APInt.getZExtValue c + (-1) * 2 ^ APInt.getBitWidth c) by lia.
    rewrite Z.mod_add by lia. apply Z.mod_small. assumption.
Qed.

(** Shifting by 0 gives the constant back. *)
Lemma shrConstant_zero (signed : bool) (w : Z) (c : APInt.t) :
  APInt.wf c -> APInt.getBitWidth c = w -> shrConstant signed w 0 c = c.
Proof.
  intros Hwf Hbw. pose proof Hwf as [Hpos Hr]. unfold shrConstant.
  replace (Z.max (w - 0) 1) with w by lia.
  destruct c as [bw v]. cbn in *. subst bw. f_equal.
  destruct signed.
  - replace (Z.min 0 (w - 1)) with 0 by lia. rewrite Z.shiftr_0_r.
    apply (getSExtValue_mod (APInt.mk w v)). assumption.
  - rewrite Z.shiftr_0_r. apply Z.mod_small. assumption.
Qed.

(** C2: for a shift amount [s] (a non-negative [int]): (1) [s = 0] folds to
    the input; (2) otherwise, a known input width [w <= s] on an unsigned
    input folds to the 1-bit constant 0; (3) otherwise a constant input of
    known width [w] folds to its payload shifted right -- logically when
    unsigned, arithmetically by [min s (w - 1)] when signed -- and kept to
    [max (w - s) 1] bits; on (2) this is the same 1-bit 0, and (4) for
    [s = 0] it is the constant input that (1) returns. *)
Theorem ShrPrimOp_fold_spec (g : Graph) (ty : IntType) (input : Value)
    (amount : Z) (operands : list (option Attribute)) :
  0 <= amount < 2 ^ 31 ->
  (amount = 0 -> ShrPrimOp_fold g ty input amount operands = Some (FoldValue input)) /\
  (forall w, amount <> 0 -> getWidth (getType input) = Some w ->
     Z.of_N w <= amount -> isUnsigned (getType input) = true ->
     ShrPrimOp_fold g ty input amount operands =
       Some (FoldAttr (IntegerAttr (APInt.mk 1 0)))) /\
  (forall w c, amount <> 0 -> getWidth (getType input) = Some w ->
     Z.of_N w < 2 ^ 31 ->
     m_FConstant g input = Some c ->
     APInt.wf c -> APInt.getBitWidth c = Z.of_N w ->
     ShrPrimOp_fold g ty input amount operands =
       Some (FoldAttr (IntegerAttr
         (shrConstant (isSigned (getType input)) (Z.of_N w) amount c)))) /\
  (forall w c, amount = 0 -> getWidth (getType input) = Some w ->
     m_FConstant g input = Some c ->
     APInt.wf c -> APInt.getBitWidth c = Z.of_N w ->
     shrConstant (isSigned (getType input)) (Z.of_N w) amount c = c).
Proof.
  intros Hamt. unfold ShrPrimOp_fold. rewrite to_int_small by assumption.
  split; [| split; [| split]]; [| | | intros w c -> _ _ Hwf Hbw; now apply shrConstant_zero].
  - intros ->. reflexivity.
  - intros w Hnz Hw Hle Hu.
    destruct (Z.eqb_spec amount 0) as [E | _]; [contradiction |].
    rewrite (getWidthOrSentinel_known _ _ Hw).
    destruct (Z.eqb_spec (Z.of_N w) (-1)) as [E | _]; [lia |].
    rewrite Hu. destruct (Z.leb_spec (Z.of_N w) amount); [| lia].
    reflexivity.
  - intros w c Hnz Hw Hw31 Hc [Hpos Hrange] Hbw.
    destruct (Z.eqb_spec amount 0) as [E | _]; [contradiction |].
    rewrite (getWidthOrSentinel_known _ _ Hw), Hc.
    set (W := Z.of_N w) in *.
    destruct (Z.eqb_spec W (-1)) as [E | _]; [lia |].
    unfold isUnsigned, shrConstant.
    pose proof Hrange as Hrange'. rewrite Hbw in Hrange', Hpos.
    destruct (isSigned (getType input)) eqn:Hs; cbn [negb andb].
    + (* signed: arithmetic shift *)
      rewrite Bool.andb_false_r.
      rewrite !to_unsigned_small by lia.
      rewrite ashr_ok by (rewrite Hbw; lia).
      cbn [mbind option_bind]. rewrite Hbw.
      destruct (Z_lt_le_dec (Z.max (W - amount) 1) W) as [Hlt | Hge].
      * rewrite truncOrSelf_lt by (cbn; lia).
        cbn. rewrite mod_pow2_mod_pow2 by lia. reflexivity.
      * rewrite truncOrSelf_ge by (cbn; lia).
        cbn. replace (Z.max (W - amount) 1) with W by lia. reflexivity.
    + (* unsigned: logical shift *)
      rewrite Bool.andb_true_r.
      destruct (Z.leb_spec W amount) as [Hle | Hgt].
      * cbn. replace (Z.max (W - amount) 1) with 1 by lia.
        rewrite (shiftr_small _ _ W) by lia. reflexivity.
      * rewrite !to_unsigned_small by lia.
        rewrite lshr_ok by (rewrite Hbw; lia).
        cbn [mbind option_bind]. rewrite Hbw.
        rewrite truncOrSelf_lt by (cbn; lia).
        cbn. replace (Z.min amount W) with amount by lia. reflexivity.
Qed.

(** ** The rewriter *)

Lemma replaceUse_other (old : positive) (new v : Value) :
  valueId v <> old -> replaceUse old new v = v.
Proof. intros H. unfold replaceUse. destruct (decide _); [contradiction | reflexivity]. Qed.

Lemma replaceOpWithNewOp_trace (op : positive) (newOp : Operation) (st : PatternRewriter) :
  trace (replaceOpWithNewOp op newOp st).2 =
    OpReplaced op (mkValue (nextId st) (opType newOp))
      :: OpInserted (nextId st) newOp :: trace st.
Proof. reflexivity. Qed.

Lemma replaceOpWithNewOp_lookup_new (op : positive) (newOp : Operation) (st : PatternRewriter) :
  op <> nextId st ->
  ops (replaceOpWithNewOp op newOp st).2 !! nextId st =
    Some (replaceUsesIn op (mkValue (nextId st) (opType newOp)) newOp).
Proof.
  intros Hne. cbn. rewrite lookup_fmap, lookup_delete_ne by done.
  rewrite lookup_insert_eq. reflexivity.
Qed.

Lemma replaceOpWithNewOp_lookup_old (op : positive) (newOp : Operation) (st : PatternRewriter) :
  ops (replaceOpWithNewOp op newOp st).2 !! op = None.
Proof. cbn. rewrite lookup_fmap, lookup_delete_eq. reflexivity. Qed.

(** The users of the replaced operation now use the new value. *)
Lemma replaceOpWithNewOp_lookup_user (op : positive) (newOp : Operation)
    (st : PatternRewriter) (j : positive) :
  j <> op -> j <> nextId st ->
  ops (replaceOpWithNewOp op newOp st).2 !! j =
    replaceUsesIn op (mkValue (nextId st) (opType newOp)) <$> ops st !! j.
Proof.
  intros H1 H2. cbn. rewrite lookup_fmap, lookup_delete_ne by done.
  rewrite lookup_insert_ne by done. reflexivity.
Qed.

(** ** bits(bits(x, ...), ...) *)

Lemma nested_bits_hi (lo lo1 hi : Z) :
  Int32.sub (Int32.add (Int32.add lo lo1) hi) lo = Int32.add lo1 hi.
Proof.
  unfold Int32.sub, Int32.add, Int32.to_unsigned.
  rewrite Zplus_mod_idemp_l, Zminus_mod_idemp_l. f_equal. lia.
Qed.

(** C3: the pattern of [BitsPrimOp] on an extract [hi:lo] of an extract
    [hi1:lo1] of [x] reports success and replaces the outer extract by one new
    extract of [x] with high bound [lo1 + hi] and low bound [lo1 + lo] (sums of
    [uint32_t], which are the exact sums whenever [lo1 + hi] fits, as it does
    for every slice inside the inner one). *)
Theorem BitsPrimOp_canonicalize_nested (op : positive) (st : PatternRewriter)
    (ty innerTy : IntType) (input x : Value) (hi lo hi1 lo1 : Z) :
  ops st !! op = Some (BitsPrimOp ty input hi lo) ->
  getDefiningOp (ops st) input = Some (BitsPrimOp innerTy x hi1 lo1) ->
  ops st !! nextId st = None ->
  valueId x <> op ->
  let newHi := Int32.add lo1 hi in
  let newLo := Int32.add lo1 lo in
  let newOp := BitsPrimOp (UInt (sliceWidth newHi newLo)) x newHi newLo in
  let st' := (canonicalize op st).2 in
  (canonicalize op st).1 = success /\
  trace st' = OpReplaced op (mkValue (nextId st) (opType newOp))
                :: OpInserted (nextId st) newOp :: trace st /\
  ops st' !! nextId st = Some newOp /\
  ops st' !! op = None /\
  (0 <= lo <= hi -> 0 <= lo1 -> lo1 + hi < 2 ^ 32 ->
   newHi = lo1 + hi /\ newLo = lo1 + lo).
Proof.
  intros Hop Hin Hfresh Hx. cbv zeta.
  assert (Hne : op <> nextId st) by congruence.
  unfold canonicalize. rewrite Hop.
  unfold BitsPrimOp_matchAndRewrite. rewrite Hin.
  rewrite nested_bits_hi.
  replace (Int32.add lo lo1) with (Int32.add lo1 lo)
    by (unfold Int32.add; f_equal; lia).
  unfold bind, ret.
  destruct (replaceOpWithNewOp op _ st) as [[] st'] eqn:E.
  pose proof (f_equal snd E) as E'. cbn [snd] in E'. subst st'.
  cbn [fst snd].
  split; [reflexivity |]. split; [apply replaceOpWithNewOp_trace |].
  split; [| split].
  - rewrite replaceOpWithNewOp_lookup_new by assumption.
    cbn. rewrite replaceUse_other by assumption. reflexivity.
  - apply replaceOpWithNewOp_lookup_old.
  - intros Hlo Hlo1 Hfit. unfold Int32.add.
    rewrite !to_unsigned_small by lia. split; reflexivity.
Qed.

(** ** cat(bits(x, ...), bits(x, ...)) *)

(** C5: the pattern of [CatPrimOp] on [cat(bits(x, hi, mid+1), bits(x, mid, lo))]
    reports success and replaces the concatenation by the one new operation
    [bits(x, hi, lo)], of the type of the concatenation. *)
Theorem CatPrimOp_canonicalize_adjacent (op : positive) (st : PatternRewriter)
    (ty lty rty : IntType) (lhs rhs x : Value) (hi mid lo : Z) :
  ops st !! op = Some (CatPrimOp ty lhs rhs) ->
  getDefiningOp (ops st) lhs = Some (BitsPrimOp lty x hi (mid + 1)) ->
  getDefiningOp (ops st) rhs = Some (BitsPrimOp rty x mid lo) ->
  0 <= mid < 2 ^ 32 ->
  ops st !! nextId st = None ->
  valueId x <> op ->
  let newOp := BitsPrimOp ty x hi lo in
  let st' := (canonicalize op st).2 in
  (canonicalize op st).1 = success /\
  trace st' = OpReplaced op (mkValue (nextId st) ty)
                :: OpInserted (nextId st) newOp :: trace st /\
  ops st' !! nextId st = Some newOp /\
  ops st' !! op = None.
Proof.
  intros Hop Hl Hr Hmid Hfresh Hx. cbv zeta.
  assert (Hne : op <> nextId st) by congruence.
  unfold canonicalize. rewrite Hop.
  unfold CatPrimOp_matchAndRewrite. rewrite Hl, Hr.
  rewrite bool_decide_eq_true_2 by reflexivity.
  replace (Int32.sub (mid + 1) 1) with mid
    by (unfold Int32.sub; rewrite to_unsigned_small by lia; lia).
  rewrite Z.eqb_refl. cbn [andb].
  unfold bind, ret.
  destruct (replaceOpWithNewOp op _ st) as [[] st'] eqn:E.
  pose proof (f_equal snd E) as E'. cbn [snd] in E'. subst st'.
  cbn [fst snd].
  split; [reflexivity |]. split; [apply replaceOpWithNewOp_trace |].
  split.
  - rewrite replaceOpWithNewOp_lookup_new by assumption.
    cbn. rewrite replaceUse_other by assumption. reflexivity.
  - apply replaceOpWithNewOp_lookup_old.
Qed.

(** ** replaceWithBits *)

Lemma m_Constant_FConstant (g : Graph) (v : Value) :
  m_Constant g v = IntegerAttr <$> m_FConstant g v.
Proof.
  unfold m_Constant, m_FConstant. destruct (getDefiningOp g v) as [[] |]; reflexivity.
Qed.

Lemma m_Constant_insert_bits (g : Graph) (n : positive) (ty t : IntType)
    (x : Value) (h l : Z) :
  m_Constant (<[n := BitsPrimOp ty x h l]> g) (mkValue n t) = None.
Proof.
  unfold m_Constant, getDefiningOp. cbn [valueId].
  rewrite lookup_insert_eq. reflexivity.
Qed.

(** What the helper tells the listener: the extract (when the widths differ),
    then the cast (when the signedness differs), then the replacement. *)
Lemma replaceWithBits_trace (op : positive) (resType : IntType) (value : Value)
    (hi lo : Z) (st : PatternRewriter) :
  trace (replaceWithBits op resType value hi lo st).2 =
    OpReplaced op (replacementValue st resType value hi lo)
      :: castEvents st resType value hi lo
      ++ slicedEvents st resType value hi lo ++ trace st.
Proof.
  unfold replaceWithBits, replacementValue, castEvents, castOperation,
    slicedValue, slicedEvents, slicedNextId, isUnsigned, bind, ret.
  destruct (decide (getWidth (getType value) = getWidth resType)) as [Hw | Hw].
  - destruct (isSigned resType) eqn:Hr, (isSigned (getType value)) eqn:Hv;
      cbn [andb negb eqb]; try reflexivity;
      unfold createOrFold; rewrite m_Constant_FConstant;
      destruct (m_FConstant (ops st) value); reflexivity.
  - unfold create_BitsPrimOp, create. cbn [getType opType BitsPrimOp_getResultType UInt isSigned].
    destruct (isSigned resType) eqn:Hr; cbn [andb negb eqb]; [| reflexivity].
    unfold createOrFold. rewrite m_Constant_FConstant.
    unfold m_FConstant, getDefiningOp. cbn [ops valueId].
    rewrite lookup_insert_eq. reflexivity.
Qed.

Lemma IntType_ext (a b : IntType) :
  isSigned a = isSigned b -> getWidth a = getWidth b -> a = b.
Proof. destruct a, b; cbn; congruence. Qed.

(** The replacement has the type of the result whenever the result is as wide
    as the slice. *)
Lemma replacementValue_type (st : PatternRewriter) (resType : IntType) (value : Value)
    (hi lo : Z) :
  getWidth resType = Some (sliceWidth hi lo) ->
  getType (replacementValue st resType value hi lo) = resType.
Proof.
  intros Hw. unfold replacementValue, slicedValue.
  destruct (decide (getWidth (getType value) = getWidth resType)) as [E | E].
  - destruct (isSigned resType) eqn:Hr, (isSigned (getType value)) eqn:Hv;
      cbn [eqb]; try reflexivity; apply IntType_ext; congruence.
  - cbn [getType BitsPrimOp_getResultType UInt isSigned].
    destruct (isSigned resType) eqn:Hr; cbn [eqb]; [reflexivity |].
    apply IntType_ext; [now rewrite Hr | now rewrite Hw].
Qed.

(** ** head, tail and shr patterns *)

Lemma run_then_success {A} (m : Rewrite A) (st : PatternRewriter) :
  (m ;;; ret success) st = (success, (m st).2).
Proof. unfold bind, ret. destruct (m st). reflexivity. Qed.

Lemma HeadPrimOp_matchAndRewrite_known (op : positive) (ty : IntType) (input : Value)
    (amount : Z) (w : N) (st : PatternRewriter) :
  getWidth (getType input) = Some w -> Z.of_N w < 2 ^ 31 ->
  0 < amount <= Z.of_N w ->
  HeadPrimOp_matchAndRewrite op ty input amount st =
    (success, (replaceWithBits op ty input (Z.of_N w - 1) (Z.of_N w - amount) st).2).
Proof.
  intros Hw Hw31 Hamt. unfold HeadPrimOp_matchAndRewrite.
  rewrite (getWidthOrSentinel_known _ _ Hw).
  destruct (Z.eqb_spec (Z.of_N w) (-1)); [lia |].
  destruct (Z.eqb_spec amount 0); [lia |]. cbn [negb].
  unfold Int32.sub. rewrite !to_unsigned_small by lia.
  apply run_then_success.
Qed.

Lemma HeadPrimOp_matchAndRewrite_zero (op : positive) (ty : IntType) (input : Value)
    (w : N) (st : PatternRewriter) :
  getWidth (getType input) = Some w ->
  HeadPrimOp_matchAndRewrite op ty input 0 st = (success, st).
Proof.
  intros Hw. unfold HeadPrimOp_matchAndRewrite.
  rewrite (getWidthOrSentinel_known _ _ Hw).
  destruct (Z.eqb_spec (Z.of_N w) (-1)); [lia | reflexivity].
Qed.

Lemma TailPrimOp_matchAndRewrite_known (op : positive) (ty : IntType) (input : Value)
    (amount : Z) (w : N) (st : PatternRewriter) :
  getWidth (getType input) = Some w -> Z.of_N w < 2 ^ 31 ->
  0 <= amount < Z.of_N w ->
  TailPrimOp_matchAndRewrite op ty input amount st =
    (success, (replaceWithBits op ty input (Z.of_N w - amount - 1) 0 st).2).
Proof.
  intros Hw Hw31 Hamt. unfold TailPrimOp_matchAndRewrite.
  rewrite (getWidthOrSentinel_known _ _ Hw).
  destruct (Z.eqb_spec (Z.of_N w) (-1)); [lia |].
  rewrite to_unsigned_small by lia.
  destruct (Z.eqb_spec amount (Z.of_N w)); [lia |]. cbn [negb].
  unfold Int32.sub. rewrite !to_unsigned_small by (rewrite ?to_unsigned_small; lia).
  apply run_then_success.
Qed.

Lemma TailPrimOp_matchAndRewrite_full (op : positive) (ty : IntType) (input : Value)
    (w : N) (st : PatternRewriter) :
  getWidth (getType input) = Some w -> Z.of_N w < 2 ^ 31 ->
  TailPrimOp_matchAndRewrite op ty input (Z.of_N w) st = (success, st).
Proof.
  intros Hw Hw31. unfold TailPrimOp_matchAndRewrite.
  rewrite (getWidthOrSentinel_known _ _ Hw).
  destruct (Z.eqb_spec (Z.of_N w) (-1)); [lia |].
  rewrite to_unsigned_small by lia. rewrite Z.eqb_refl. reflexivity.
Qed.

Lemma ShrPrimOp_matchAndRewrite_lt (op : positive) (ty : IntType) (input : Value)
    (amount : Z) (w : N) (st : PatternRewriter) :
  getWidth (getType input) = Some w -> Z.of_N w < 2 ^ 31 ->
  0 <= amount < Z.of_N w ->
  ShrPrimOp_matchAndRewrite op ty input amount st =
    (success, (replaceWithBits op ty input (Z.of_N w - 1) amount st).2).
Proof.
  intros Hw Hw31 Hamt. unfold ShrPrimOp_matchAndRewrite.
  rewrite (getWidthOrSentinel_known _ _ Hw).
  destruct (Z.eqb_spec (Z.of_N w) (-1)); [lia |].
  rewrite to_int_small by lia.
  destruct (Z.leb_spec (Z.of_N w) amount); [lia |].
  rewrite to_unsigned_small by lia.
  apply run_then_success.
Qed.

Lemma ShrPrimOp_matchAndRewrite_ge_signed (op : positive) (ty : IntType) (input : Value)
    (amount : Z) (w : N) (st : PatternRewriter) :
  getWidth (getType input) = Some w -> 0 < Z.of_N w < 2 ^ 31 ->
  Z.of_N w <= amount < 2 ^ 31 -> isUnsigned ty = false ->
  ShrPrimOp_matchAndRewrite op ty input amount st =
    (success, (replaceWithBits op ty input (Z.of_N w - 1) (Z.of_N w - 1) st).2).
Proof.
  intros Hw Hw31 Hamt Hs. unfold ShrPrimOp_matchAndRewrite.
  rewrite (getWidthOrSentinel_known _ _ Hw).
  destruct (Z.eqb_spec (Z.of_N w) (-1)); [lia |].
  rewrite to_int_small by lia.
  destruct (Z.leb_spec (Z.of_N w) amount); [| lia].
  rewrite Hs. rewrite to_unsigned_small by lia.
  apply run_then_success.
Qed.

Lemma ShrPrimOp_matchAndRewrite_ge_unsigned (op : positive) (ty : IntType) (input : Value)
    (amount : Z) (w : N) (st : PatternRewriter) :
  getWidth (getType input) = Some w ->
  Z.of_N w <= amount < 2 ^ 31 -> isUnsigned ty = true ->
  ShrPrimOp_matchAndRewrite op ty input amount st = (failure, st).
Proof.
  intros Hw Hamt Hs. unfold ShrPrimOp_matchAndRewrite.
  rewrite (getWidthOrSentinel_known _ _ Hw).
  destruct (Z.eqb_spec (Z.of_N w) (-1)); [lia |].
  rewrite to_int_small by lia.
  destruct (Z.leb_spec (Z.of_N w) amount); [| lia].
  rewrite Hs. reflexivity.
Qed.

Lemma replaceWithBits_coerced (op : positive) (ty : IntType) (value : Value)
    (hi lo : Z) (st : PatternRewriter) :
  getWidth ty = Some (sliceWidth hi lo) ->
  coerced op ty value hi lo st (replaceWithBits op ty value hi lo st).2.
Proof.
  intros Hw. split.
  - apply replaceWithBits_trace.
  - now apply replacementValue_type.
Qed.

(** C9 (amended): a replacement made through [replaceWithBits] has exactly
    the declared result type of the operation replaced, as soon as that type
    is as wide as the slice asked for; the extract is emitted only when the
    width of the value differs from the slice's, and exactly when the
    signedness differs one operation is appended through [createOrFold]: the
    reinterpretation cast to the result type ([AsSIntPrimOp] for a signed
    result, [AsUIntPrimOp] for an unsigned one) when an extract was emitted or
    the value is not a constant, and, when the value itself is a constant, the
    constant of the result type with the same payload that the cast folds to,
    in place of a cast.  The take-head, take-tail and shift-right patterns
    meet the condition with their declared result widths, so what they
    replace an operation with has the type of the operation. *)
Theorem coercion_type_preserving :
  (forall op ty value hi lo st,
     getWidth ty = Some (sliceWidth hi lo) ->
     coerced op ty value hi lo st (replaceWithBits op ty value hi lo st).2 /\
     (slicedEvents st ty value hi lo = [] <->
        getWidth (getType value) = Some (sliceWidth hi lo)) /\
     (castEvents st ty value hi lo = [] <->
        isSigned (getType (slicedValue st ty value hi lo)) = isSigned ty) /\
     (isSigned (getType (slicedValue st ty value hi lo)) <> isSigned ty ->
        exists inserted,
          castEvents st ty value hi lo =
            [OpInserted (slicedNextId st ty value) inserted] /\
          (slicedEvents st ty value hi lo <> [] \/
           m_FConstant (ops st) value = None ->
             inserted = if isSigned ty
                        then AsSIntPrimOp ty (slicedValue st ty value hi lo)
                        else AsUIntPrimOp ty (slicedValue st ty value hi lo)) /\
          (forall c, slicedEvents st ty value hi lo = [] ->
             m_FConstant (ops st) value = Some c ->
             inserted = ConstantOp ty c))) /\
  (forall op ty input amount w st,
     getWidth (getType input) = Some w -> Z.of_N w < 2 ^ 31 ->
     0 < amount <= Z.of_N w ->
     getWidth ty = Some (HeadPrimOp_resultWidth w amount) ->
     coerced op ty input (Z.of_N w - 1) (Z.of_N w - amount) st
       (HeadPrimOp_matchAndRewrite op ty input amount st).2) /\
  (forall op ty input amount w st,
     getWidth (getType input) = Some w -> Z.of_N w < 2 ^ 31 ->
     0 <= amount < Z.of_N w ->
     getWidth ty = Some (TailPrimOp_resultWidth w amount) ->
     coerced op ty input (Z.of_N w - amount - 1) 0 st
       (TailPrimOp_matchAndRewrite op ty input amount st).2) /\
  (forall op ty input amount w st,
     getWidth (getType input) = Some w -> 0 < Z.of_N w < 2 ^ 31 ->
     0 <= amount < 2 ^ 31 ->
     getWidth ty = Some (ShrPrimOp_resultWidth w amount) ->
     (Z.of_N w <= amount -> isUnsigned ty = false) ->
     coerced op ty input (Z.of_N w - 1)
       (if amount <? Z.of_N w then amount else Z.of_N w - 1) st
       (ShrPrimOp_matchAndRewrite op ty input amount st).2).
Proof.
  split; [| split; [| split]].
  - intros op ty value hi lo st Hw. split; [now apply replaceWithBits_coerced |].
    unfold slicedEvents, castEvents. split; [| split].
    + rewrite Hw. destruct (decide _) as [E | E]; split; intros H;
        try reflexivity; try assumption; try discriminate; contradiction.
    + destruct (isSigned ty), (isSigned (getType (slicedValue st ty value hi lo)));
        cbn [eqb]; split; intros H; try reflexivity; discriminate.
    + intros Hne.
      destruct (eqb (isSigned ty) (isSigned (getType (slicedValue st ty value hi lo))))
        eqn:E; [apply eqb_prop in E; congruence |].
      eexists. split; [reflexivity |]. unfold castOperation. split.
      * intros [Hs | Hc].
        -- destruct (decide _) as [E' | E']; [contradiction | reflexivity].
        -- rewrite Hc. destruct (decide _); reflexivity.
      * intros c Hs Hc.
        destruct (decide _) as [E' | E']; [rewrite Hc; reflexivity | discriminate].
  - intros op ty input amount w st Hw Hw31 Hamt Hty.
    rewrite (HeadPrimOp_matchAndRewrite_known _ _ _ _ _ _ Hw Hw31 Hamt). cbn [snd].
    apply replaceWithBits_coerced. rewrite Hty.
    unfold HeadPrimOp_resultWidth, sliceWidth. do 2 f_equal. lia.
  - intros op ty input amount w st Hw Hw31 Hamt Hty.
    rewrite (TailPrimOp_matchAndRewrite_known _ _ _ _ _ _ Hw Hw31 Hamt). cbn [snd].
    apply replaceWithBits_coerced. rewrite Hty.
    unfold TailPrimOp_resultWidth, sliceWidth. do 2 f_equal. lia.
  - intros op ty input amount w st Hw Hw31 Hamt Hty Hsigned.
    destruct (Z.ltb_spec amount (Z.of_N w)) as [Hlt | Hge].
    + rewrite (ShrPrimOp_matchAndRewrite_lt _ _ _ _ _ _ Hw) by lia. cbn [snd].
      apply replaceWithBits_coerced. rewrite Hty.
      unfold ShrPrimOp_resultWidth, sliceWidth. do 2 f_equal. lia.
    + rewrite (ShrPrimOp_matchAndRewrite_ge_signed _ _ _ _ _ _ Hw) by (auto; lia).
      cbn [snd]. apply replaceWithBits_coerced. rewrite Hty.
      unfold ShrPrimOp_resultWidth, sliceWidth. do 2 f_equal. lia.
Qed.

(** The pattern of [ShrPrimOp] on an input of known width [w] and a shift
    amount [s]: for [s >= w] and an unsigned result it fails and leaves the
    state as it was.  On an input of at least one bit it succeeds otherwise:
    for [s < w] it replaces the operation through the coercion helper by the
    slice [w-1 : s] of the input, for [s >= w] and a signed result by the
    slice [w-1 : w-1]; whenever the result is not as wide as the input, the
    extract with those bounds is the operation inserted. *)
Theorem ShrPrimOp_canonicalize (op : positive) (ty : IntType) (input : Value)
    (amount : Z) (w : N) (st : PatternRewriter) :
  ops st !! op = Some (ShrPrimOp ty input amount) ->
  ops st !! nextId st = None ->
  valueId input <> op ->
  getWidth (getType input) = Some w -> Z.of_N w < 2 ^ 31 ->
  0 <= amount < 2 ^ 31 ->
  let W := Z.of_N w in
  let lo := if amount <? W then amount else W - 1 in
  let r := canonicalize op st in
  (W <= amount -> isUnsigned ty = true -> r = (failure, st)) /\
  (0 < W -> (W <= amount -> isUnsigned ty = false) ->
     r = (success, (replaceWithBits op ty input (W - 1) lo st).2) /\
     trace r.2 = OpReplaced op (replacementValue st ty input (W - 1) lo)
                   :: castEvents st ty input (W - 1) lo
                   ++ slicedEvents st ty input (W - 1) lo ++ trace st /\
     (getWidth ty <> Some w ->
        slicedEvents st ty input (W - 1) lo =
          [OpInserted (nextId st)
             (BitsPrimOp (UInt (sliceWidth (W - 1) lo)) input (W - 1) lo)] /\
        ops r.2 !! nextId st =
          Some (BitsPrimOp (UInt (sliceWidth (W - 1) lo)) input (W - 1) lo))).
Proof.
  intros Hop Hfresh Hin Hw Hw31 Hamt W lo r.
  assert (Hne : op <> nextId st) by congruence.
  subst r. unfold canonicalize. rewrite Hop. split.
  - intros Hge Hu. now apply (ShrPrimOp_matchAndRewrite_ge_unsigned _ _ _ _ w); try lia.
  - intros Hpos Hsigned.
    assert (Hr : ShrPrimOp_matchAndRewrite op ty input amount st =
                 (success, (replaceWithBits op ty input (W - 1) lo st).2)).
    { subst lo W. destruct (Z.ltb_spec amount (Z.of_N w)) as [Hlt | Hge].
      - apply ShrPrimOp_matchAndRewrite_lt; auto; lia.
      - apply ShrPrimOp_matchAndRewrite_ge_signed; auto; lia. }
    rewrite Hr. cbn [fst snd].
    split; [reflexivity |].
    split; [apply replaceWithBits_trace |].
    intros Hwne. unfold slicedEvents.
    destruct (decide (getWidth (getType input) = getWidth ty)) as [E | E];
      [congruence |].
    split; [reflexivity |].
    unfold replaceWithBits, bind, ret.
    destruct (decide (getWidth (getType input) = getWidth ty)) as [E' | _];
      [congruence |].
    unfold create_BitsPrimOp, create.
    cbn [getType opType BitsPrimOp_getResultType UInt isSigned isUnsigned].
    destruct (isSigned ty) eqn:Hs; cbn [andb negb eqb].
    + unfold createOrFold. cbn [ops]. rewrite m_Constant_insert_bits.
      cbn [AsSIntPrimOp_fold].
      unfold create, replaceOp. cbn [snd fst ops nextId opType].
      rewrite lookup_fmap, lookup_delete_ne by done.
      rewrite lookup_insert_ne by lia. rewrite lookup_insert_eq.
      cbn. rewrite replaceUse_other by assumption. reflexivity.
    + unfold isUnsigned.
      cbn [UInt isSigned negb andb]. rewrite Bool.andb_false_r.
      unfold replaceOp. cbn [snd fst ops nextId opType].
      rewrite lookup_fmap, lookup_delete_ne by done. rewrite lookup_insert_eq.
      cbn. rewrite replaceUse_other by assumption. reflexivity.
Qed.

(** ** Patterns that do not rewrite *)

(** A pattern that reports failure has not touched the state. *)
Lemma canonicalize_failure_untouched (op : positive) (st : PatternRewriter) :
  (canonicalize op st).1 = failure -> (canonicalize op st).2 = st.
Proof.
  unfold canonicalize.
  destruct (ops st !! op) as [[] |]; try (intros _; reflexivity).
  - unfold CatPrimOp_matchAndRewrite.
    destruct (getDefiningOp (ops st) lhs) as [[] |]; try (intros _; reflexivity).
    destruct (getDefiningOp (ops st) rhs) as [[] |]; try (intros _; reflexivity).
    destruct (_ && _); [| intros _; reflexivity].
    rewrite run_then_success. discriminate.
  - unfold BitsPrimOp_matchAndRewrite.
    destruct (getDefiningOp (ops st) input) as [[] |]; try (intros _; reflexivity).
    rewrite run_then_success. discriminate.
  - unfold HeadPrimOp_matchAndRewrite.
    destruct (_ =? -1); [intros _; reflexivity |].
    rewrite run_then_success. discriminate.
  - unfold TailPrimOp_matchAndRewrite.
    destruct (_ =? -1); [intros _; reflexivity |].
    rewrite run_then_success. discriminate.
  - unfold ShrPrimOp_matchAndRewrite.
    destruct (_ =? -1); [intros _; reflexivity |].
    destruct (_ <=? _).
    + destruct (isUnsigned ty); [intros _; reflexivity |].
      rewrite run_then_success. discriminate.
    + rewrite run_then_success. discriminate.
Qed.

Lemma replaceWithBits_mutates (op : positive) (ty : IntType) (value : Value)
    (hi lo : Z) (st : PatternRewriter) :
  trace (replaceWithBits op ty value hi lo st).2 <> trace st.
Proof.
  rewrite replaceWithBits_trace. intros H.
  apply (f_equal (@length _)) in H. cbn in H. rewrite !length_app in H. lia.
Qed.

(** The patterns of [CatPrimOp], [BitsPrimOp] and [ShrPrimOp] report success
    only after a replacement: the trace has grown. *)
Lemma canonicalize_success_mutates (op : positive) (st : PatternRewriter) :
  (canonicalize op st).1 = success ->
  match ops st !! op with
  | Some (HeadPrimOp _ _ _) | Some (TailPrimOp _ _ _) => False
  | _ => True
  end ->
  trace (canonicalize op st).2 <> trace st.
Proof.
  assert (Hlonger : forall (e1 e2 : RewriteEvent) l, e1 :: e2 :: l <> l).
  { intros e1 e2 l H. apply (f_equal (@length _)) in H. cbn in H. lia. }
  unfold canonicalize.
  destruct (ops st !! op) as [[] |]; try discriminate; try contradiction.
  - unfold CatPrimOp_matchAndRewrite.
    destruct (getDefiningOp (ops st) lhs) as [[] |]; try discriminate.
    destruct (getDefiningOp (ops st) rhs) as [[] |]; try discriminate.
    destruct (_ && _); [| discriminate].
    rewrite run_then_success. intros _ _. cbn [snd].
    rewrite replaceOpWithNewOp_trace. apply Hlonger.
  - unfold BitsPrimOp_matchAndRewrite.
    destruct (getDefiningOp (ops st) input) as [[] |]; try discriminate.
    rewrite run_then_success. intros _ _. cbn [snd].
    rewrite replaceOpWithNewOp_trace. apply Hlonger.
  - unfold ShrPrimOp_matchAndRewrite.
    destruct (_ =? -1); [discriminate |].
    destruct (_ <=? _).
    + destruct (isUnsigned ty); [discriminate |].
      rewrite run_then_success. intros _ _. apply replaceWithBits_mutates.
    + rewrite run_then_success. intros _ _. apply replaceWithBits_mutates.
Qed.

(** C8 (failing input): on [head(x, 0)] and on [tail(x, 8)] with an 8-bit [x]
    the pattern reports success although it made no replacement: the state
    after it is the state before it. *)
Theorem noop_patterns_report_success :
  canonicalize 2 Examples.headZero = (success, Examples.headZero) /\
  canonicalize 2 Examples.tailFull = (success, Examples.tailFull).
Proof. split; reflexivity. Qed.

(** ** Unknown widths *)



(** ** The instances of the rewrites *)

(** C4 (counterexample): [bits(bits(x, 7, 4), 2, 1)] is not rewritten into
    [bits(x, 5, 4)]. *)
Lemma bits_of_bits_is_not_5_4 :
  let st' := (canonicalize 3 Examples.nestedBits).2 in
  let v := mkValue 4 (UInt 2) in
  trace st' = [OpReplaced 3 v; OpInserted 4 (BitsPrimOp (UInt 2) Examples.x8 6 5)] /\
  getDefiningOp (ops st') v <> Some (BitsPrimOp (UInt 2) Examples.x8 5 4).
Proof. cbv zeta. split; [reflexivity | discriminate]. Qed.

(** C4 (amended): the pattern rewrites [bits(bits(x, 7, 4), 2, 1)] into the
    single extract [bits(x, 6, 5)]: it reports success, inserts that extract
    and replaces the outer extract by it. *)
Theorem nested_bits_example :
  let r := canonicalize 3 Examples.nestedBits in
  let v := mkValue 4 (UInt 2) in
  r.1 = success /\
  trace r.2 = [OpReplaced 3 v; OpInserted 4 (BitsPrimOp (UInt 2) Examples.x8 6 5)] /\
  getDefiningOp (ops r.2) v = Some (BitsPrimOp (UInt 2) Examples.x8 6 5) /\
  ops r.2 !! 3%positive = None.
Proof. cbv zeta. repeat split; reflexivity. Qed.

(** C9 (counterexample): on [tail(c, 0)], with [c] the constant 10 of type
    sint<4> and a result of type uint<4>, the signedness of the value differs
    from the result's, and yet no cast is appended: the cast is folded, and
    the constant 10 of type uint<4> is inserted and replaces the operation. *)
Lemma constant_slice_gets_no_cast :
  let st' := (canonicalize 2 Examples.tailConstant).2 in
  isSigned (getType Examples.c4) <> isSigned (UInt 4) /\
  trace st' = [OpReplaced 2 (mkValue 3 (UInt 4));
               OpInserted 3 (ConstantOp (UInt 4) (APInt.mk 4 10))] /\
  ~ Exists (fun e => insertsCast e = true) (trace st').
Proof.
  cbv zeta. split; [discriminate |]. split; [reflexivity |].
  change (trace (canonicalize 2 Examples.tailConstant).2)
    with [OpReplaced 2 (mkValue 3 (UInt 4));
          OpInserted 3 (ConstantOp (UInt 4) (APInt.mk 4 10))].
  intros H. repeat (apply Exists_cons in H as [H | H]; [discriminate |]).
  apply Exists_nil in H. exact H.
Qed.

(** C10 (failing input): on [shr(s, 1)] with [s] of type sint<0> and the
    result of type sint<1>, the fold hook does not fold, and the pattern
    reports success after it inserted an extract whose two bounds are
    4294967295 -- [inputWidth - 1] converted to [unsigned] -- on an input that
    has no bit at all. *)
Theorem ShrPrimOp_canonicalize_zero_width :
  let st := Examples.shrZeroWidth in
  let r := canonicalize 2 st in
  getWidth (getType Examples.s0) = Some 0%N /\
  ops st !! 2%positive = Some (ShrPrimOp (SInt 1) Examples.s0 1) /\
  ShrPrimOp_fold (ops st) (SInt 1) Examples.s0 1 [None] = Some NoFold /\
  r.1 = success /\
  trace r.2 = [OpReplaced 2 (mkValue 4 (SInt 1));
               OpInserted 4 (AsSIntPrimOp (SInt 1) (mkValue 3 (UInt 1)));
               OpInserted 3 (BitsPrimOp (UInt 1) Examples.s0 4294967295 4294967295)] /\
  ops r.2 !! 3%positive
    = Some (BitsPrimOp (UInt 1) Examples.s0 4294967295 4294967295).
Proof. cbv zeta. repeat apply conj; reflexivity. Qed.

(** ** Instances *)

Lemma ShrPrimOp_fold_spec_witness :
  (0 <= 0 < 2 ^ 31 /\
   ShrPrimOp_fold ∅ (UInt 8) Examples.x8 0 [None] = Some (FoldValue Examples.x8)) /\
  (0 <= 9 < 2 ^ 31 /\
   ShrPrimOp_fold ∅ (UInt 1) Examples.x8 9 [None]
     = Some (FoldAttr (IntegerAttr (APInt.mk 1 0)))) /\
  (0 <= 2 < 2 ^ 31 /\ APInt.wf (APInt.mk 4 10) /\
   ShrPrimOp_fold Examples.constTen (SInt 2) Examples.c4 2 [None]
     = Some (FoldAttr (IntegerAttr (APInt.mk 2 2)))) /\
  (0 <= 0 < 2 ^ 31 /\ APInt.wf (APInt.mk 4 10) /\
   shrConstant true 4 0 (APInt.mk 4 10) = APInt.mk 4 10).
Proof.
  assert (H0 : 0 <= 0 < 2 ^ 31) by lia.
  assert (H9 : 0 <= 9 < 2 ^ 31) by lia.
  assert (H2 : 0 <= 2 < 2 ^ 31) by lia.
  assert (Hnz9 : 9 <> 0) by lia.
  assert (Hnz2 : 2 <> 0) by lia.
  assert (Hle : Z.of_N 8 <= 9) by (simpl; lia).
  assert (Hlt : Z.of_N 4 < 2 ^ 31) by (simpl; lia).
  assert (Hwf : APInt.wf (APInt.mk 4 10)) by (unfold APInt.wf; simpl; lia).
  split; [| split; [| split]].
  - split; [exact H0 |].
    exact (proj1 (ShrPrimOp_fold_spec ∅ (UInt 8) Examples.x8 0 [None] H0) eq_refl).
  - split; [exact H9 |].
    exact (proj1 (proj2 (ShrPrimOp_fold_spec ∅ (UInt 1) Examples.x8 9 [None] H9))
             8%N Hnz9 eq_refl Hle eq_refl).
  - split; [exact H2 |]. split; [exact Hwf |].
    exact (proj1 (proj2 (proj2 (ShrPrimOp_fold_spec Examples.constTen (SInt 2)
                                  Examples.c4 2 [None] H2)))
             4%N (APInt.mk 4 10) Hnz2 eq_refl Hlt eq_refl Hwf eq_refl).
  - split; [exact H0 |]. split; [exact Hwf |].
    exact (proj2 (proj2 (proj2 (ShrPrimOp_fold_spec Examples.constTen (SInt 4)
                                  Examples.c4 0 [None] H0)))
             4%N (APInt.mk 4 10) eq_refl eq_refl eq_refl Hwf eq_refl).
Defined.

Lemma XorPrimOp_fold_self_witness :
  XorPrimOp_fold ∅ (UInt 8) Examples.x8 Examples.x8 [None; None]
    = Some (FoldAttr (IntegerAttr (APInt.mk 8 0))) /\
  XorPrimOp_fold ∅ (UInt 0) Examples.x0 Examples.x0 [None; None] = Some NoFold /\
  (operandsWf [None; None] /\
   forall a, XorPrimOp_fold ∅ (UInt 0) Examples.x0 Examples.x0 [None; None]
               = Some (FoldAttr (IntegerAttr a)) -> 0 < APInt.getBitWidth a) /\
  XorPrimOp_fold ∅ (UInt 0) Examples.x0 Examples.x0 [None; None] <> None.
Proof.
  assert (Hwf : operandsWf [None; None]).
  { intros a [H | [H | []]]; discriminate H. }
  assert (Hpos : (0 < 8)%N) by lia.
  split; [| split; [| split]].
  - exact (proj1 (XorPrimOp_fold_self ∅ (UInt 8) Examples.x8 [None; None])
             8%N eq_refl Hpos).
  - exact (proj1 (proj2 (XorPrimOp_fold_self ∅ (UInt 0) Examples.x0 [None; None]))
             eq_refl).
  - split; [exact Hwf |].
    exact (proj1 (proj2 (proj2 (XorPrimOp_fold_self ∅ (UInt 0) Examples.x0 [None; None])))
             Hwf).
  - exact (proj2 (proj2 (proj2 (XorPrimOp_fold_self ∅ (UInt 0) Examples.x0 [None; None])))
             eq_refl).
Defined.

Lemma BitsPrimOp_canonicalize_nested_witness :
  ops Examples.nestedBits !! 3%positive
    = Some (BitsPrimOp (UInt 2) (mkValue 2 (UInt 4)) 2 1) /\
  getDefiningOp (ops Examples.nestedBits) (mkValue 2 (UInt 4))
    = Some (BitsPrimOp (UInt 4) Examples.x8 7 4) /\
  ops Examples.nestedBits !! nextId Examples.nestedBits = None /\
  valueId Examples.x8 <> 3%positive /\
  (canonicalize 3 Examples.nestedBits).1 = success /\
  ops (canonicalize 3 Examples.nestedBits).2 !! 4%positive
    = Some (BitsPrimOp (UInt 2) Examples.x8 (4 + 2) (4 + 1)).
Proof.
  assert (Hx : valueId Examples.x8 <> 3%positive) by (simpl; lia).
  pose proof (BitsPrimOp_canonicalize_nested 3 Examples.nestedBits (UInt 2) (UInt 4)
                (mkValue 2 (UInt 4)) Examples.x8 2 1 7 4
                eq_refl eq_refl eq_refl Hx) as H.
  cbv zeta in H. destruct H as (Hs & _ & Hnew & _ & _).
  repeat (split; [reflexivity |]).
  split; [exact Hx |]. split; [exact Hs | exact Hnew].
Defined.

Lemma CatPrimOp_canonicalize_adjacent_witness :
  ops Examples.catBits !! 4%positive
    = Some (CatPrimOp (UInt 8) (mkValue 2 (UInt 4)) (mkValue 3 (UInt 4))) /\
  getDefiningOp (ops Examples.catBits) (mkValue 2 (UInt 4))
    = Some (BitsPrimOp (UInt 4) Examples.x8 7 (3 + 1)) /\
  getDefiningOp (ops Examples.catBits) (mkValue 3 (UInt 4))
    = Some (BitsPrimOp (UInt 4) Examples.x8 3 0) /\
  0 <= 3 < 2 ^ 32 /\
  ops Examples.catBits !! nextId Examples.catBits = None /\
  valueId Examples.x8 <> 4%positive /\
  (canonicalize 4 Examples.catBits).1 = success /\
  trace (canonicalize 4 Examples.catBits).2
    = [OpReplaced 4 (mkValue 5 (UInt 8));
       OpInserted 5 (BitsPrimOp (UInt 8) Examples.x8 7 0)] /\
  ops (canonicalize 4 Examples.catBits).2 !! 5%positive
    = Some (BitsPrimOp (UInt 8) Examples.x8 7 0) /\
  ops (canonicalize 4 Examples.catBits).2 !! 4%positive = None.
Proof.
  assert (Hx : valueId Examples.x8 <> 4%positive) by (simpl; lia).
  assert (Hmid : 0 <= 3 < 2 ^ 32) by lia.
  pose proof (CatPrimOp_canonicalize_adjacent 4 Examples.catBits (UInt 8) (UInt 4) (UInt 4)
                (mkValue 2 (UInt 4)) (mkValue 3 (UInt 4)) Examples.x8 7 3 0
                eq_refl eq_refl eq_refl Hmid eq_refl Hx) as H.
  cbv zeta in H.
  repeat (split; [reflexivity |]).
  split; [exact Hmid |]. split; [reflexivity |]. split; [exact Hx |]. exact H.
Defined.


Lemma coercion_type_preserving_witness :
  (getWidth (UInt 3) = Some (sliceWidth 7 5) /\
   coerced 2 (UInt 3) Examples.s8 7 5 Examples.headThree
     (replaceWithBits 2 (UInt 3) Examples.s8 7 5 Examples.headThree).2) /\
  (getWidth (UInt 3) = Some (HeadPrimOp_resultWidth 8 3) /\
   coerced 2 (UInt 3) Examples.s8 (8 - 1) (8 - 3) Examples.headThree
     (HeadPrimOp_matchAndRewrite 2 (UInt 3) Examples.s8 3 Examples.headThree).2) /\
  (getWidth (UInt 5) = Some (TailPrimOp_resultWidth 8 3) /\
   coerced 2 (UInt 5) Examples.s8 (8 - 3 - 1) 0 Examples.tailThree
     (TailPrimOp_matchAndRewrite 2 (UInt 5) Examples.s8 3 Examples.tailThree).2) /\
  (getWidth (SInt 5) = Some (ShrPrimOp_resultWidth 8 3) /\
   coerced 2 (SInt 5) Examples.s8 (8 - 1) 3 Examples.shrThree
     (ShrPrimOp_matchAndRewrite 2 (SInt 5) Examples.s8 3 Examples.shrThree).2) /\
  (getWidth (SInt 5) = Some (sliceWidth 7 3) /\
   isSigned (getType (slicedValue Examples.shrThree (SInt 5) Examples.s8 7 3))
     <> isSigned (SInt 5) /\
   castEvents Examples.shrThree (SInt 5) Examples.s8 7 3
     = [OpInserted 4 (AsSIntPrimOp (SInt 5) (mkValue 3 (UInt 5)))]) /\
  (getWidth (UInt 4) = Some (sliceWidth 3 0) /\
   isSigned (getType (slicedValue Examples.tailConstant (UInt 4) Examples.c4 3 0))
     <> isSigned (UInt 4) /\
   castEvents Examples.tailConstant (UInt 4) Examples.c4 3 0
     = [OpInserted 3 (ConstantOp (UInt 4) (APInt.mk 4 10))]).
Proof.
  destruct coercion_type_preserving as (Hhelper & Hhead & Htail & Hshr).
  assert (Hcast : isSigned (getType (slicedValue Examples.shrThree (SInt 5)
                                       Examples.s8 7 3)) <> isSigned (SInt 5))
    by discriminate.
  assert (Hconst : isSigned (getType (slicedValue Examples.tailConstant (UInt 4)
                                        Examples.c4 3 0)) <> isSigned (UInt 4))
    by discriminate.
  split; [| split; [| split; [| split; [| split]]]].
  - split; [reflexivity |].
    apply (proj1 (Hhelper 2%positive (UInt 3) Examples.s8 7 5 Examples.headThree eq_refl)).
  - split; [reflexivity |].
    apply (Hhead 2%positive (UInt 3) Examples.s8 3 8%N Examples.headThree);
      [reflexivity | simpl; lia | simpl; lia | reflexivity].
  - split; [reflexivity |].
    apply (Htail 2%positive (UInt 5) Examples.s8 3 8%N Examples.tailThree);
      [reflexivity | simpl; lia | simpl; lia | reflexivity].
  - split; [reflexivity |].
    apply (Hshr 2%positive (SInt 5) Examples.s8 3 8%N Examples.shrThree);
      [reflexivity | simpl; lia | lia | reflexivity | intros; reflexivity].
  - split; [reflexivity |]. split; [exact Hcast |].
    destruct (Hhelper 2%positive (SInt 5) Examples.s8 7 3 Examples.shrThree eq_refl)
      as (_ & _ & _ & Hins).
    destruct (Hins Hcast) as (inserted & Hevents & Hop & _).
    rewrite Hevents, (Hop (or_intror eq_refl)). reflexivity.
  - split; [reflexivity |]. split; [exact Hconst |].
    destruct (Hhelper 2%positive (UInt 4) Examples.c4 3 0 Examples.tailConstant eq_refl)
      as (_ & _ & _ & Hins).
    destruct (Hins Hconst) as (inserted & Hevents & _ & Hop).
    rewrite Hevents, (Hop (APInt.mk 4 10) eq_refl eq_refl). reflexivity.
Defined.

Lemma ShrPrimOp_canonicalize_witness :
  (ops Examples.shrThree !! 2%positive = Some (ShrPrimOp (SInt 5) Examples.s8 3) /\
   (canonicalize 2 Examples.shrThree).1 = success /\
   trace (canonicalize 2 Examples.shrThree).2
     = [OpReplaced 2 (mkValue 4 (SInt 5));
        OpInserted 4 (AsSIntPrimOp (SInt 5) (mkValue 3 (UInt 5)));
        OpInserted 3 (BitsPrimOp (UInt 5) Examples.s8 7 3)] /\
   ops (canonicalize 2 Examples.shrThree).2 !! 3%positive
     = Some (BitsPrimOp (UInt 5) Examples.s8 7 3)) /\
  (ops Examples.shrNine !! 2%positive = Some (ShrPrimOp (SInt 1) Examples.s8 9) /\
   ops (canonicalize 2 Examples.shrNine).2 !! 3%positive
     = Some (BitsPrimOp (UInt 1) Examples.s8 7 7)) /\
  (ops Examples.shrNineU !! 2%positive = Some (ShrPrimOp (UInt 1) Examples.x8 9) /\
   canonicalize 2 Examples.shrNineU = (failure, Examples.shrNineU)).
Proof.
  assert (Hx : valueId Examples.s8 <> 2%positive) by (simpl; lia).
  assert (Hw : Z.of_N 8 < 2 ^ 31) by (simpl; lia).
  assert (Hpos : 0 < Z.of_N 8) by (simpl; lia).
  assert (H3 : 0 <= 3 < 2 ^ 31) by lia.
  assert (H9 : 0 <= 9 < 2 ^ 31) by lia.
  assert (Hne5 : getWidth (SInt 5) <> Some 8%N) by discriminate.
  assert (Hne1 : getWidth (SInt 1) <> Some 8%N) by discriminate.
  split; [| split].
  - pose proof (ShrPrimOp_canonicalize 2 (SInt 5) Examples.s8 3 8%N Examples.shrThree
                  eq_refl eq_refl Hx eq_refl Hw H3) as H.
    cbv zeta in H. destruct H as [_ H].
    destruct (H Hpos (fun _ => eq_refl)) as (Hr & Htr & Hbits).
    destruct (Hbits Hne5) as [_ Hlook].
    split; [reflexivity |]. split; [exact (f_equal fst Hr) |].
    split; [exact Htr | exact Hlook].
  - pose proof (ShrPrimOp_canonicalize 2 (SInt 1) Examples.s8 9 8%N Examples.shrNine
                  eq_refl eq_refl Hx eq_refl Hw H9) as H.
    cbv zeta in H. destruct H as [_ H].
    destruct (H Hpos (fun _ => eq_refl)) as (_ & _ & Hbits).
    destruct (Hbits Hne1) as [_ Hlook].
    split; [reflexivity | exact Hlook].
  - pose proof (ShrPrimOp_canonicalize 2 (UInt 1) Examples.x8 9 8%N Examples.shrNineU
                  eq_refl eq_refl Hx eq_refl Hw H9) as H.
    cbv zeta in H. destruct H as [H _].
    split; [reflexivity |]. apply H; [simpl; lia | reflexivity].
Defined.

(** * Further properties of the fold hooks and patterns *)

(** ** Bitwise folds on constants *)

Lemma log2_lt_width (v w : Z) : 0 < w -> 0 <= v < 2 ^ w -> Z.log2 v < w.
Proof.
  intros Hw Hv. destruct (Z.eq_dec v 0) as [-> | Hnz].
  - cbn. assumption.
  - apply Z.log2_lt_pow2; lia.
Qed.

Lemma land_all_ones (v w : Z) : 0 < w -> 0 <= v < 2 ^ w -> Z.land v (2 ^ w - 1) = v.
Proof.
  intros Hw Hv. replace (2 ^ w - 1) with (Z.ones w) by (rewrite Z.ones_equiv; lia).
  apply Z.land_ones_low; [lia | now apply log2_lt_width].
Qed.

Lemma lor_all_ones (v w : Z) : 0 < w -> 0 <= v < 2 ^ w -> Z.lor v (2 ^ w - 1) = 2 ^ w - 1.
Proof.
  intros Hw Hv. replace (2 ^ w - 1) with (Z.ones w) by (rewrite Z.ones_equiv; lia).
  apply Z.lor_ones_low; [lia | now apply log2_lt_width].
Qed.

Lemma constOperands_constants (g : Graph) (lhs rhs : Value) (a b : APInt.t) :
  m_FConstant g lhs = Some a -> m_FConstant g rhs = Some b ->
  constOperands g lhs rhs = [Some (IntegerAttr a); Some (IntegerAttr b)].
Proof.
  intros Ha Hb. unfold constOperands. rewrite !m_Constant_FConstant, Ha, Hb. reflexivity.
Qed.

Lemma same_value_same_constant (g : Graph) (lhs rhs : Value) (a b : APInt.t) :
  lhs = rhs -> m_FConstant g lhs = Some a -> m_FConstant g rhs = Some b -> a = b.
Proof. intros -> Ha Hb. congruence. Qed.

(** X1: on two constant operands of one bit width, [AndPrimOp::fold] always
    folds, and whichever rule fires ([and(x, 0)], [and(x, -1)], [and(x, x)] or
    the constant fold) the result is the constant of the bitwise and. *)
Theorem AndPrimOp_fold_constants (g : Graph) (ty : IntType) (lhs rhs : Value)
    (a b : APInt.t) :
  m_FConstant g lhs = Some a -> m_FConstant g rhs = Some b ->
  APInt.wf a -> APInt.wf b -> APInt.getBitWidth a = APInt.getBitWidth b ->
  AndPrimOp_fold g ty lhs rhs (constOperands g lhs rhs) ≫= foldedConstant g =
    Some (APInt.mk (APInt.getBitWidth a)
            (Z.land (APInt.getZExtValue a) (APInt.getZExtValue b))).
Proof.
  intros Ha Hb [Hwa Hra] [Hwb Hrb] Hw.
  unfold AndPrimOp_fold. rewrite Hb.
  rewrite (constOperands_constants _ _ _ _ _ Ha Hb).
  destruct a as [wa va], b as [wb vb]. cbn in *. subst wb.
  destruct (APInt.isNullValue _ && _) eqn:E1.
  { apply andb_prop in E1 as [E1 _]. unfold APInt.isNullValue in E1. cbn in E1.
    apply Z.eqb_eq in E1. subst vb. cbn. rewrite Hb, Z.land_0_r. reflexivity. }
  destruct (APInt_isAllOnesValue _ && _ && _) eqn:E2.
  { apply andb_prop in E2 as [E2 _]. apply andb_prop in E2 as [E2 _].
    unfold APInt_isAllOnesValue in E2. cbn in E2. apply Z.eqb_eq in E2. subst vb.
    cbn. rewrite Ha, land_all_ones by lia. reflexivity. }
  destruct (bool_decide (lhs = rhs) && _) eqn:E3.
  { apply andb_prop in E3 as [E3 _]. apply bool_decide_eq_true_1 in E3.
    pose proof (same_value_same_constant _ _ _ _ _ E3 Ha Hb) as [= ->].
    cbn. rewrite Hb, Z.land_diag. reflexivity. }
  unfold constFoldBinaryOp. cbn [APInt.getBitWidth].
  destruct (decide (wa = wa)) as [_ | Hne]; [| contradiction].
  unfold APInt_and. cbn. rewrite Z.eqb_refl. reflexivity.
Qed.

(** X2: on two constant operands of one bit width, [OrPrimOp::fold] always
    folds, and whichever rule fires the result is the constant of the bitwise
    or. *)
Theorem OrPrimOp_fold_constants (g : Graph) (ty : IntType) (lhs rhs : Value)
    (a b : APInt.t) :
  m_FConstant g lhs = Some a -> m_FConstant g rhs = Some b ->
  APInt.wf a -> APInt.wf b -> APInt.getBitWidth a = APInt.getBitWidth b ->
  OrPrimOp_fold g ty lhs rhs (constOperands g lhs rhs) ≫= foldedConstant g =
    Some (APInt.mk (APInt.getBitWidth a)
            (Z.lor (APInt.getZExtValue a) (APInt.getZExtValue b))).
Proof.
  intros Ha Hb [Hwa Hra] [Hwb Hrb] Hw.
  unfold OrPrimOp_fold. rewrite Hb.
  rewrite (constOperands_constants _ _ _ _ _ Ha Hb).
  destruct a as [wa va], b as [wb vb]. cbn in *. subst wb.
  destruct (APInt.isNullValue _ && _) eqn:E1.
  { apply andb_prop in E1 as [E1 _]. unfold APInt.isNullValue in E1. cbn in E1.
    apply Z.eqb_eq in E1. subst vb. cbn. rewrite Ha, Z.lor_0_r. reflexivity. }
  destruct (APInt_isAllOnesValue _ && _ && _) eqn:E2.
  { apply andb_prop in E2 as [E2 _]. apply andb_prop in E2 as [E2 _].
    unfold APInt_isAllOnesValue in E2. cbn in E2. apply Z.eqb_eq in E2. subst vb.
    cbn. rewrite Hb, lor_all_ones by lia. reflexivity. }
  destruct (bool_decide (lhs = rhs) && _) eqn:E3.
  { apply andb_prop in E3 as [E3 _]. apply bool_decide_eq_true_1 in E3.
    pose proof (same_value_same_constant _ _ _ _ _ E3 Ha Hb) as [= ->].
    cbn. rewrite Hb, Z.lor_diag. reflexivity. }
  unfold constFoldBinaryOp. cbn [APInt.getBitWidth].
  destruct (decide (wa = wa)) as [_ | Hne]; [| contradiction].
  unfold APInt_or. cbn. rewrite Z.eqb_refl. reflexivity.
Qed.

(** X3: on two constant operands of one bit width, [XorPrimOp::fold] always
    folds to a constant whose payload is the bitwise exclusive or; its width
    is the operands' except on the [xor(x, x)] rule, where it is the width of
    the result type (1 when that is unknown). *)
Theorem XorPrimOp_fold_constants (g : Graph) (ty : IntType) (lhs rhs : Value)
    (a b : APInt.t) :
  m_FConstant g lhs = Some a -> m_FConstant g rhs = Some b ->
  APInt.wf a -> APInt.wf b -> APInt.getBitWidth a = APInt.getBitWidth b ->
  exists c,
    XorPrimOp_fold g ty lhs rhs (constOperands g lhs rhs) ≫= foldedConstant g = Some c /\
    APInt.getZExtValue c = Z.lxor (APInt.getZExtValue a) (APInt.getZExtValue b) /\
    (lhs <> rhs -> APInt.getBitWidth c = APInt.getBitWidth a).
Proof.
  intros Ha Hb [Hwa Hra] [Hwb Hrb] Hw.
  unfold XorPrimOp_fold, xorZeroRule. rewrite Hb.
  rewrite (constOperands_constants _ _ _ _ _ Ha Hb).
  destruct a as [wa va], b as [wb vb]. cbn in *. subst wb.
  destruct (APInt.isNullValue _ && _) eqn:E1.
  { apply andb_prop in E1 as [E1 _]. unfold APInt.isNullValue in E1. cbn in E1.
    apply Z.eqb_eq in E1. subst vb. cbn. rewrite Ha. eexists. split; [reflexivity |].
    cbn. rewrite Z.lxor_0_r. split; reflexivity. }
  destruct (bool_decide (lhs = rhs) && _) eqn:E3.
  { apply andb_prop in E3 as [E3 E4]. apply bool_decide_eq_true_1 in E3.
    pose proof (same_value_same_constant _ _ _ _ _ E3 Ha Hb) as [= ->].
    apply negb_true_iff, Z.eqb_neq in E4.
    rewrite make_nonzero by assumption. cbn. eexists. split; [reflexivity |].
    cbn. rewrite Z.lxor_nilpotent. split; [apply Z.mod_0_l | contradiction].
    apply Z.pow_nonzero; [lia | apply Z.abs_nonneg]. }
  unfold constFoldBinaryOp. cbn [APInt.getBitWidth].
  destruct (decide (wa = wa)) as [_ | Hne]; [| contradiction].
  unfold APInt.xor. cbn. rewrite Z.eqb_refl. cbn.
  eexists. split; [reflexivity |]. split; reflexivity.
Qed.

(** ** Folds to an existing value *)

Lemma constFoldBinaryOp_no_value (operands : list (option Attribute))
    (f : APInt.t -> APInt.t -> option APInt.t) (v : Value) :
  constFoldBinaryOp operands f <> Some (FoldValue v).
Proof.
  unfold constFoldBinaryOp.
  destruct operands as [| [[x] |] [| [[y] |] [|]]]; try discriminate.
  destruct (decide _); [| discriminate].
  destruct (f x y); discriminate.
Qed.

Lemma bind_attr_no_value {A} (m : option A) (k : A -> Attribute) (v : Value) :
  (m ≫= λ a, Some (FoldAttr (k a))) <> Some (FoldValue v).
Proof. destruct m; discriminate. Qed.

Lemma DivPrimOp_fold_value (g : Graph) (ty : IntType) (lhs rhs : Value)
    (operands : list (option Attribute)) (v : Value) :
  DivPrimOp_fold g ty lhs rhs operands = Some (FoldValue v) ->
  v = lhs /\ getType v = ty.
Proof.
  unfold DivPrimOp_fold, IntegerAttr_get.
  destruct (decide (lhs = rhs)).
  - destruct (APInt.make _ _); discriminate.
  - destruct (m_FConstant g rhs); [| discriminate].
    destruct (APInt.isOneValue t) ; cbn [andb]; [| discriminate].
    destruct (bool_decide (getType lhs = ty)) eqn:E; [| discriminate].
    apply bool_decide_eq_true_1 in E. intros [= <-]. auto.
Qed.

Lemma AndPrimOp_fold_value (g : Graph) (ty : IntType) (lhs rhs : Value)
    (operands : list (option Attribute)) (v : Value) :
  AndPrimOp_fold g ty lhs rhs operands = Some (FoldValue v) ->
  (v = lhs \/ v = rhs) /\ getType v = ty.
Proof.
  unfold AndPrimOp_fold.
  destruct (_ && bool_decide (getType rhs = ty)) eqn:E1.
  { apply andb_prop in E1 as [_ E1]. apply bool_decide_eq_true_1 in E1.
    intros [= <-]. auto. }
  destruct (_ && bool_decide (getType lhs = ty) && _) eqn:E2.
  { apply andb_prop in E2 as [E2 _]. apply andb_prop in E2 as [_ E2].
    apply bool_decide_eq_true_1 in E2. intros [= <-]. auto. }
  destruct (bool_decide (lhs = rhs) && _) eqn:E3.
  { apply andb_prop in E3 as [_ E3]. apply bool_decide_eq_true_1 in E3.
    intros [= <-]. auto. }
  intros H. exfalso. exact (constFoldBinaryOp_no_value _ _ _ H).
Qed.

Lemma OrPrimOp_fold_value (g : Graph) (ty : IntType) (lhs rhs : Value)
    (operands : list (option Attribute)) (v : Value) :
  OrPrimOp_fold g ty lhs rhs operands = Some (FoldValue v) ->
  (v = lhs \/ v = rhs) /\ getType v = ty.
Proof.
  unfold OrPrimOp_fold.
  destruct (_ && bool_decide (getType lhs = ty)) eqn:E1.
  { apply andb_prop in E1 as [_ E1]. apply bool_decide_eq_true_1 in E1.
    intros [= <-]. auto. }
  destruct (_ && bool_decide (getType rhs = ty) && _) eqn:E2.
  { apply andb_prop in E2 as [E2 _]. apply andb_prop in E2 as [_ E2].
    apply bool_decide_eq_true_1 in E2. intros [= <-]. auto. }
  destruct (bool_decide (lhs = rhs) && _) eqn:E3.
  { apply andb_prop in E3 as [_ E3]. apply bool_decide_eq_true_1 in E3.
    intros [= <-]. auto. }
  intros H. exfalso. exact (constFoldBinaryOp_no_value _ _ _ H).
Qed.

Lemma XorPrimOp_fold_value (g : Graph) (ty : IntType) (lhs rhs : Value)
    (operands : list (option Attribute)) (v : Value) :
  XorPrimOp_fold g ty lhs rhs operands = Some (FoldValue v) ->
  v = lhs /\ getType v = ty.
Proof.
  unfold XorPrimOp_fold.
  destruct (xorZeroRule g ty lhs rhs) eqn:E1.
  - unfold xorZeroRule in E1.
    destruct (m_FConstant g rhs) as [value |]; [| discriminate].
    apply andb_prop in E1 as [_ E1]. apply bool_decide_eq_true_1 in E1.
    intros [= <-]. auto.
  - destruct (bool_decide (lhs = rhs) && _).
    + destruct (APInt.make _ _); discriminate.
    + intros H. exfalso. exact (constFoldBinaryOp_no_value _ _ _ H).
Qed.

Lemma EQPrimOp_fold_value (g : Graph) (ty : IntType) (lhs rhs : Value)
    (operands : list (option Attribute)) (v : Value) :
  EQPrimOp_fold g ty lhs rhs operands = Some (FoldValue v) ->
  v = lhs /\ getType v = ty.
Proof.
  unfold EQPrimOp_fold.
  destruct (m_FConstant g rhs) as [value |]; [| discriminate].
  destruct (matchingLhsConstant g lhs value).
  - destruct (APInt_eq _ _) as [b |]; [| discriminate].
    cbn. destruct (APInt_ofBool b); discriminate.
  - destruct (_ && bool_decide (getType lhs = ty) && _) eqn:E2; [| discriminate].
    apply andb_prop in E2 as [E2 _]. apply andb_prop in E2 as [_ E2].
    apply bool_decide_eq_true_1 in E2. intros [= <-]. auto.
Qed.

Lemma NEQPrimOp_fold_value (g : Graph) (ty : IntType) (lhs rhs : Value)
    (operands : list (option Attribute)) (v : Value) :
  NEQPrimOp_fold g ty lhs rhs operands = Some (FoldValue v) ->
  v = lhs /\ getType v = ty.
Proof.
  unfold NEQPrimOp_fold.
  destruct (m_FConstant g rhs) as [value |]; [| discriminate].
  destruct (matchingLhsConstant g lhs value).
  - destruct (APInt_eq _ _) as [b |]; [| discriminate].
    cbn. destruct (APInt_ofBool (negb b)); discriminate.
  - destruct (_ && bool_decide (getType lhs = ty) && _) eqn:E2; [| discriminate].
    apply andb_prop in E2 as [E2 _]. apply andb_prop in E2 as [_ E2].
    apply bool_decide_eq_true_1 in E2. intros [= <-]. auto.
Qed.

Lemma PadPrimOp_fold_value (g : Graph) (ty : IntType) (input : Value)
    (amount : Z) (operands : list (option Attribute)) (v : Value) :
  PadPrimOp_fold g ty input amount operands = Some (FoldValue v) ->
  v = input /\ getType v = ty.
Proof.
  unfold PadPrimOp_fold.
  destruct (decide (getType input = ty)); [intros [= <-]; auto |].
  destruct (_ =? -1); [discriminate |].
  destruct (m_FConstant g input); [| discriminate].
  destruct (_ =? -1); [discriminate |].
  destruct (isSigned (getType input)).
  - destruct (APInt_sext _ _); discriminate.
  - destruct (APInt_zext _ _); discriminate.
Qed.

Lemma BitsPrimOp_fold_value (g : Graph) (ty : IntType) (input : Value)
    (hi lo : Z) (operands : list (option Attribute)) (v : Value) :
  BitsPrimOp_fold g ty input hi lo operands = Some (FoldValue v) ->
  v = input /\ getType v = ty.
Proof.
  unfold BitsPrimOp_fold.
  destruct (bool_decide (getType input = ty) && _) eqn:E1.
  { apply andb_prop in E1 as [E1 _]. apply bool_decide_eq_true_1 in E1.
    intros [= <-]. auto. }
  destruct (if hasWidth (getType input) then _ else _); [| discriminate].
  destruct (APInt.lshr _ _); [| discriminate]. cbn.
  destruct (APInt.truncOrSelf _ _); discriminate.
Qed.

(** X4: whenever the fold hook of [div], [and], [or], [xor], [eq], [neq],
    [pad] or [bits] returns an existing value, that value is an operand of
    the operation and has exactly the declared result type of the operation. *)
Theorem value_folds_have_result_type (g : Graph) (ty : IntType)
    (lhs rhs input : Value) (amount hi lo : Z)
    (operands : list (option Attribute)) (v : Value) :
  (DivPrimOp_fold g ty lhs rhs operands = Some (FoldValue v) ->
     v = lhs /\ getType v = ty) /\
  (AndPrimOp_fold g ty lhs rhs operands = Some (FoldValue v) ->
     (v = lhs \/ v = rhs) /\ getType v = ty) /\
  (OrPrimOp_fold g ty lhs rhs operands = Some (FoldValue v) ->
     (v = lhs \/ v = rhs) /\ getType v = ty) /\
  (XorPrimOp_fold g ty lhs rhs operands = Some (FoldValue v) ->
     v = lhs /\ getType v = ty) /\
  (EQPrimOp_fold g ty lhs rhs operands = Some (FoldValue v) ->
     v = lhs /\ getType v = ty) /\
  (NEQPrimOp_fold g ty lhs rhs operands = Some (FoldValue v) ->
     v = lhs /\ getType v = ty) /\
  (PadPrimOp_fold g ty input amount operands = Some (FoldValue v) ->
     v = input /\ getType v = ty) /\
  (BitsPrimOp_fold g ty input hi lo operands = Some (FoldValue v) ->
     v = input /\ getType v = ty).
Proof.
  repeat apply conj.
  - apply DivPrimOp_fold_value.
  - apply AndPrimOp_fold_value.
  - apply OrPrimOp_fold_value.
  - apply XorPrimOp_fold_value.
  - apply EQPrimOp_fold_value.
  - apply NEQPrimOp_fold_value.
  - apply PadPrimOp_fold_value.
  - apply BitsPrimOp_fold_value.
Qed.

(** ** Comparisons *)

(** X5: on two constant operands of one bit width, [EQPrimOp::fold] and
    [NEQPrimOp::fold] return complementary 1-bit constants: [eq] is 1 exactly
    when the payloads are equal, [neq] exactly when they differ.  When the
    right operand is not a constant neither hook folds, whatever the left
    operand is. *)
Theorem EQ_NEQ_fold_constants (g : Graph) (ty : IntType) (lhs rhs : Value)
    (operands : list (option Attribute)) :
  (forall a b,
     m_FConstant g lhs = Some a -> m_FConstant g rhs = Some b ->
     APInt.getBitWidth a = APInt.getBitWidth b ->
     let equal := APInt.getZExtValue a =? APInt.getZExtValue b in
     EQPrimOp_fold g ty lhs rhs operands =
       Some (FoldAttr (IntegerAttr (APInt.mk 1 (if equal then 1 else 0)))) /\
     NEQPrimOp_fold g ty lhs rhs operands =
       Some (FoldAttr (IntegerAttr (APInt.mk 1 (if equal then 0 else 1))))) /\
  (m_FConstant g rhs = None ->
     EQPrimOp_fold g ty lhs rhs operands = Some NoFold /\
     NEQPrimOp_fold g ty lhs rhs operands = Some NoFold).
Proof.
  split.
  - intros a b Ha Hb Hw equal. subst equal.
    unfold EQPrimOp_fold, NEQPrimOp_fold, matchingLhsConstant, APInt_eq, APInt_ofBool.
    rewrite Hb, Ha, <- Hw, !Z.eqb_refl.
    rewrite (Z.eqb_sym (APInt.getZExtValue b)).
    destruct (APInt.getZExtValue a =? APInt.getZExtValue b); split; reflexivity.
  - intros Hb. unfold EQPrimOp_fold, NEQPrimOp_fold. rewrite Hb. split; reflexivity.
Qed.

(** ** mux *)

(** X6: with a constant 1-bit selector, a value [MuxPrimOp::fold] returns is
    the branch the selector picks ([low] for 0, [high] otherwise), or -- on
    the [mux(cond, 1, 0) -> cond] rule -- the selector itself, a constant with
    the payload of the branch it picks. *)
Theorem MuxPrimOp_fold_selects (g : Graph) (ty : IntType) (sel high low : Value)
    (operands : list (option Attribute)) (s : APInt.t) (v : Value) :
  m_FConstant g sel = Some s -> APInt.wf s -> APInt.getBitWidth s = 1 ->
  MuxPrimOp_fold g ty sel high low operands = Some (FoldValue v) ->
  let chosen := if APInt.isNullValue s then low else high in
  v = chosen \/
  (v = sel /\ getType sel = ty /\
   exists c, m_FConstant g chosen = Some c /\
             APInt.getZExtValue c = APInt.getZExtValue s).
Proof.
  intros Hs [_ Hr] Hw. rewrite Hw in Hr. change (2 ^ 1) with 2 in Hr.
  unfold MuxPrimOp_fold, muxConstantSelector. rewrite Hs.
  destruct (APInt.isNullValue s) eqn:E0; cbn [negb andb];
    unfold APInt.isNullValue in E0;
    [apply Z.eqb_eq in E0 | apply Z.eqb_neq in E0].
  - destruct (bool_decide (getType low = ty)); [intros [= <-]; now left |].
    destruct (decide (high = low)) as [-> | Hne]; [intros [= <-]; now left |].
    destruct (m_FConstant g low) as [value |] eqn:Hl; [| discriminate].
    destruct (m_FConstant g high) as [c1 |]; [| discriminate].
    destruct (_ && _ && bool_decide (ty = getType sel)) eqn:E; [| discriminate].
    apply andb_prop in E as [E Et]. apply andb_prop in E as [_ En].
    apply bool_decide_eq_true_1 in Et. unfold APInt.isNullValue in En.
    apply Z.eqb_eq in En. intros [= <-]. right.
    split; [reflexivity |]. split; [auto |]. exists value. split; [reflexivity | lia].
  - destruct (bool_decide (getType high = ty)); [intros [= <-]; now left |].
    destruct (decide (high = low)) as [-> | Hne]; [intros [= <-]; now left |].
    destruct (m_FConstant g low) as [value |]; [| discriminate].
    destruct (m_FConstant g high) as [c1 |] eqn:Hh; [| discriminate].
    destruct (_ && _ && bool_decide (ty = getType sel)) eqn:E; [| discriminate].
    apply andb_prop in E as [E Et]. apply andb_prop in E as [Eo _].
    apply bool_decide_eq_true_1 in Et. unfold APInt.isOneValue in Eo.
    apply Z.eqb_eq in Eo. intros [= <-]. right.
    split; [reflexivity |]. split; [auto |]. exists c1. split; [reflexivity | lia].
Qed.

(** ** pad and shl on constants *)

Lemma pow2_double (n : Z) : 0 < n -> 2 ^ n = 2 * 2 ^ (n - 1).
Proof.
  intros Hn. replace n with (Z.succ (n - 1)) at 1 by lia.
  apply Z.pow_succ_r. lia.
Qed.

Lemma getSExtValue_range (c : APInt.t) :
  APInt.wf c ->
  - 2 ^ (APInt.getBitWidth c - 1) <= APInt.getSExtValue c < 2 ^ (APInt.getBitWidth c - 1).
Proof.
  intros [Hw Hr]. unfold APInt.getSExtValue.
  pose proof (pow2_double _ Hw) as Hd.
  destruct (Z.ltb_spec (APInt.getZExtValue c) (2 ^ (APInt.getBitWidth c - 1))); lia.
Qed.

Lemma getSExtValue_of_mod (d x : Z) :
  0 < d -> - 2 ^ (d - 1) <= x < 2 ^ (d - 1) ->
  APInt.getSExtValue (APInt.mk d (x mod 2 ^ d)) = x.
Proof.
  intros Hd Hx. pose proof (pow2_double _ Hd) as Hp.
  assert (0 < 2 ^ (d - 1)) by (apply Z.pow_pos_nonneg; lia).
  unfold APInt.getSExtValue. cbn.
  destruct (Z_lt_le_dec x 0) as [Hneg | Hpos].
  - replace (x mod 2 ^ d) with (x + 2 ^ d).
    + destruct (Z.ltb_spec (x + 2 ^ d) (2 ^ (d - 1))); lia.
    + apply Z.mod_unique with (-1); lia.
  - rewrite Z.mod_small by lia.
    destruct (Z.ltb_spec x (2 ^ (d - 1))); lia.
Qed.

(** X7: a [pad] of a constant to a wider known width folds to a constant of
    the destination width that has the same numeric value: the same signed
    value when the input type is signed (sign extension), the same unsigned
    value otherwise (zero extension). *)
Theorem PadPrimOp_fold_constant (g : Graph) (ty : IntType) (input : Value)
    (amount : Z) (operands : list (option Attribute)) (c : APInt.t) (w d : N) :
  getWidth (getType input) = Some w -> getWidth ty = Some d ->
  Z.of_N w < Z.of_N d < 2 ^ 31 ->
  m_FConstant g input = Some c -> APInt.wf c -> APInt.getBitWidth c = Z.of_N w ->
  exists r,
    PadPrimOp_fold g ty input amount operands = Some (FoldAttr (IntegerAttr r)) /\
    APInt.getBitWidth r = Z.of_N d /\ APInt.wf r /\
    if isSigned (getType input)
    then APInt.getSExtValue r = APInt.getSExtValue c
    else APInt.getZExtValue r = APInt.getZExtValue c.
Proof.
  intros Hw Hd Hlt Hc Hwf Hbw. pose proof Hwf as [Hpos Hr].
  unfold PadPrimOp_fold.
  destruct (decide (getType input = ty)) as [E | _].
  { rewrite E in Hw. rewrite Hw in Hd. injection Hd as ->. lia. }
  rewrite (getWidthOrSentinel_known _ _ Hw), (getWidthOrSentinel_known _ _ Hd), Hc.
  destruct (Z.eqb_spec (Z.of_N w) (-1)); [lia |].
  destruct (Z.eqb_spec (Z.of_N d) (-1)); [lia |].
  rewrite to_unsigned_small by lia.
  unfold APInt_sext, APInt_zext. rewrite Hbw.
  destruct (Z.ltb_spec (Z.of_N w) (Z.of_N d)); [| lia].
  assert (Hpow : 2 ^ APInt.getBitWidth c <= 2 ^ Z.of_N d)
    by (apply Z.pow_le_mono_r; lia).
  destruct (isSigned (getType input)); cbn [mbind option_bind]; eexists;
    (split; [reflexivity |]); unfold APInt.wf;
    cbn [APInt.getBitWidth APInt.getZExtValue].
  - split; [reflexivity |]. split.
    + split; [lia |]. apply Z.mod_pos_bound. apply Z.pow_pos_nonneg; lia.
    + apply getSExtValue_of_mod; [lia |].
      pose proof (getSExtValue_range c Hwf) as Hs.
      assert (2 ^ (APInt.getBitWidth c - 1) <= 2 ^ (Z.of_N d - 1))
        by (apply Z.pow_le_mono_r; lia).
      lia.
  - split; [reflexivity |]. split; [| reflexivity].
    split; lia.
Qed.

Lemma getSExtValue_shifted (w s v : Z) :
  0 < w -> 0 <= s -> 0 <= v < 2 ^ w ->
  APInt.getSExtValue (APInt.mk (w + s) (v * 2 ^ s)) =
    APInt.getSExtValue (APInt.mk w v) * 2 ^ s.
Proof.
  intros Hw Hs Hv. unfold APInt.getSExtValue. cbn.
  assert (Hs' : 0 < 2 ^ s) by (apply Z.pow_pos_nonneg; lia).
  assert (H1 : 2 ^ (w + s - 1) = 2 ^ (w - 1) * 2 ^ s)
    by (rewrite <- Z.pow_add_r by lia; f_equal; lia).
  assert (H2 : 2 ^ (w + s) = 2 ^ w * 2 ^ s) by (apply Z.pow_add_r; lia).
  rewrite H1, H2.
  destruct (Z.ltb_spec v (2 ^ (w - 1))), (Z.ltb_spec (v * 2 ^ s) (2 ^ (w - 1) * 2 ^ s));
    nia.
Qed.

(** X8: a [shl] of a constant of known width [w] by [s > 0] folds to the
    constant of [w + s] bits whose payload is the input's times [2 ^ s]: no
    bit is lost, and the signed value is the input's signed value times
    [2 ^ s] as well. *)
Theorem ShlPrimOp_fold_constant (g : Graph) (ty : IntType) (input : Value)
    (amount : Z) (operands : list (option Attribute)) (c : APInt.t) (w : N) :
  0 < amount < 2 ^ 31 ->
  getWidth (getType input) = Some w -> Z.of_N w + amount < 2 ^ 31 ->
  m_FConstant g input = Some c -> APInt.wf c -> APInt.getBitWidth c = Z.of_N w ->
  let r := APInt.mk (Z.of_N w + amount) (APInt.getZExtValue c * 2 ^ amount) in
  ShlPrimOp_fold g ty input amount operands = Some (FoldAttr (IntegerAttr r)) /\
  APInt.wf r /\
  APInt.getSExtValue r = APInt.getSExtValue c * 2 ^ amount.
Proof.
  intros Hamt Hw Hlt Hc Hwf Hbw r. pose proof Hwf as [Hpos Hr].
  assert (Hs : 0 < 2 ^ amount) by (apply Z.pow_pos_nonneg; lia).
  assert (Hadd : 2 ^ (Z.of_N w + amount) = 2 ^ Z.of_N w * 2 ^ amount)
    by (apply Z.pow_add_r; lia).
  rewrite Hbw in Hr, Hpos.
  split; [| split].
  - unfold ShlPrimOp_fold. rewrite to_int_small by lia.
    destruct (Z.eqb_spec amount 0); [lia |].
    rewrite Hc, (getWidthOrSentinel_known _ _ Hw).
    destruct (Z.eqb_spec (Z.of_N w) (-1)); [lia |]. cbn [negb].
    rewrite !to_unsigned_small by lia.
    unfold APInt_zext. rewrite Hbw.
    destruct (Z.ltb_spec (Z.of_N w) (Z.of_N w + amount)); [| lia].
    cbn [mbind option_bind]. unfold APInt_shl. cbn [APInt.getBitWidth APInt.getZExtValue].
    destruct (Z.ltb_spec (Z.of_N w + amount) (Z.min amount (Z.of_N w + amount))); [lia |].
    cbn [mbind option_bind]. subst r. unfold getIntAttr. do 4 f_equal.
    replace (Z.min amount (Z.of_N w + amount)) with amount by lia.
    rewrite Z.shiftl_mul_pow2 by lia. apply Z.mod_small. nia.
  - subst r. unfold APInt.wf. cbn [APInt.getBitWidth APInt.getZExtValue].
    split; [lia | nia].
  - subst r. destruct c as [bw v]. cbn [APInt.getBitWidth APInt.getZExtValue] in *.
    subst bw. apply getSExtValue_shifted; lia.
Qed.

(** ** bits on constants, and the rewrites on constants *)

Lemma BitsPrimOp_fold_bitsConstant (g : Graph) (input : Value) (hi lo : Z)
    (operands : list (option Attribute)) (c : APInt.t) (w : N) :
  getWidth (getType input) = Some w -> Z.of_N w < 2 ^ 32 ->
  0 <= lo <= hi -> hi < Z.of_N w ->
  m_FConstant g input = Some c -> APInt.wf c -> APInt.getBitWidth c = Z.of_N w ->
  BitsPrimOp_fold g (UInt (sliceWidth hi lo)) input hi lo operands ≫= foldedConstant g
    = Some (bitsConstant c hi lo).
Proof.
  intros Hw Hw32 Hlo Hhi Hc [Hpos Hr] Hbw.
  destruct c as [bw v]. cbn [APInt.getBitWidth APInt.getZExtValue] in *. subst bw.
  unfold BitsPrimOp_fold, hasWidth, bitsConstant.
  rewrite (getWidthOrSentinel_known _ _ Hw), Hw, Hc.
  cbn [APInt.getZExtValue].
  destruct (Z.eqb_spec (Z.of_N w) (-1)); [lia |]. cbn [negb].
  rewrite Bool.andb_true_r.
  destruct (bool_decide (getType input = UInt (sliceWidth hi lo))) eqn:E.
  - apply bool_decide_eq_true_1 in E. rewrite E in Hw. cbn in Hw.
    injection Hw as Hw. unfold sliceWidth in Hw.
    assert (lo = 0 /\ hi = Z.of_N w - 1) as [-> ->] by lia.
    cbn [mbind option_bind foldedConstant]. rewrite Hc. do 2 f_equal; [lia |].
    rewrite Z.shiftr_0_r. symmetry. apply Z.mod_small.
    replace (Z.of_N w - 1 - 0 + 1) with (Z.of_N w) by lia. assumption.
  - rewrite lshr_ok by (cbn; lia). cbn [mbind option_bind APInt.getBitWidth APInt.getZExtValue].
    unfold Int32.add, Int32.sub. rewrite !to_unsigned_small by (rewrite ?to_unsigned_small; lia).
    destruct (Z_lt_le_dec (hi - lo + 1) (Z.of_N w)) as [Hlt | Hge].
    + rewrite truncOrSelf_lt by (cbn; lia). reflexivity.
    + rewrite truncOrSelf_ge by (cbn; lia).
      assert (lo = 0 /\ hi = Z.of_N w - 1) as [-> ->] by lia.
      cbn [mbind option_bind foldedConstant getIntAttr]. do 2 f_equal; [lia |].
      rewrite Z.shiftr_0_r. symmetry. apply Z.mod_small.
      replace (Z.of_N w - 1 - 0 + 1) with (Z.of_N w) by lia. assumption.
Qed.

(** X9: the fold of a well-typed extract [hi:lo] (with [lo <= hi] below the
    input width) of a constant stands for the constant of [hi - lo + 1] bits
    whose payload is bits [hi:lo] of the input's; when the slice is the whole
    input it is the input itself. *)
Theorem BitsPrimOp_fold_constant (g : Graph) (input : Value) (hi lo : Z)
    (operands : list (option Attribute)) (c : APInt.t) (w : N) :
  getWidth (getType input) = Some w -> Z.of_N w < 2 ^ 32 ->
  0 <= lo <= hi -> hi < Z.of_N w ->
  m_FConstant g input = Some c -> APInt.wf c -> APInt.getBitWidth c = Z.of_N w ->
  BitsPrimOp_fold g (UInt (sliceWidth hi lo)) input hi lo operands ≫= foldedConstant g
    = Some (bitsConstant c hi lo) /\
  APInt.getBitWidth (bitsConstant c hi lo) = hi - lo + 1 /\
  APInt.getZExtValue (bitsConstant c hi lo)
    = (APInt.getZExtValue c / 2 ^ lo) mod 2 ^ (hi - lo + 1).
Proof.
  intros Hw Hw32 Hlo Hhi Hc Hwf Hbw. split; [| split].
  - now apply (BitsPrimOp_fold_bitsConstant g input hi lo operands c w).
  - reflexivity.
  - unfold bitsConstant. cbn. rewrite Z.shiftr_div_pow2 by lia. reflexivity.
Qed.

Lemma bitsConstant_wf (c : APInt.t) (hi lo : Z) :
  0 <= lo <= hi -> APInt.wf (bitsConstant c hi lo).
Proof.
  intros H. unfold bitsConstant, APInt.wf. cbn. split; [lia |].
  apply Z.mod_pos_bound. apply Z.pow_pos_nonneg; lia.
Qed.

Lemma bitsConstant_nested (c : APInt.t) (hi1 lo1 hi2 lo2 : Z) :
  0 <= lo1 -> 0 <= lo2 <= hi2 -> hi2 <= hi1 - lo1 ->
  bitsConstant (bitsConstant c hi1 lo1) hi2 lo2 =
    bitsConstant c (lo1 + hi2) (lo1 + lo2).
Proof.
  intros H1 H2 H3. unfold bitsConstant. cbn [APInt.getZExtValue].
  replace (lo1 + hi2 - (lo1 + lo2) + 1) with (hi2 - lo2 + 1) by lia.
  f_equal. apply Z.bits_inj'. intros n Hn.
  destruct (Z_lt_le_dec n (hi2 - lo2 + 1)) as [Hlt | Hge].
  - rewrite !Z.mod_pow2_bits_low by lia.
    rewrite !Z.shiftr_spec by lia.
    rewrite Z.mod_pow2_bits_low by lia.
    rewrite Z.shiftr_spec by lia. f_equal. lia.
  - rewrite !Z.mod_pow2_bits_high by lia. reflexivity.
Qed.

(** X10: the rewrite of a nested extract agrees with the folds.  When the
    inner extract [hi1:lo1] of a constant has been folded to a constant, the
    fold of the outer extract [hi2:lo2] of that constant stands for the same
    constant as the fold of the single extract [lo1+hi2 : lo1+lo2] of the
    original constant, which is the operation the pattern of [BitsPrimOp]
    creates. *)
Theorem BitsPrimOp_fold_nested (g g1 : Graph) (x v1 : Value) (hi1 lo1 hi2 lo2 : Z)
    (operands : list (option Attribute)) (c c1 : APInt.t) (w : N) :
  getWidth (getType x) = Some w -> Z.of_N w < 2 ^ 32 ->
  m_FConstant g x = Some c -> APInt.wf c -> APInt.getBitWidth c = Z.of_N w ->
  0 <= lo1 <= hi1 -> hi1 < Z.of_N w ->
  0 <= lo2 <= hi2 -> hi2 <= hi1 - lo1 ->
  BitsPrimOp_fold g (UInt (sliceWidth hi1 lo1)) x hi1 lo1 operands
    ≫= foldedConstant g = Some c1 ->
  getType v1 = UInt (sliceWidth hi1 lo1) ->
  m_FConstant g1 v1 = Some c1 ->
  BitsPrimOp_fold g1 (UInt (sliceWidth hi2 lo2)) v1 hi2 lo2 operands
    ≫= foldedConstant g1 =
  BitsPrimOp_fold g (UInt (sliceWidth (lo1 + hi2) (lo1 + lo2))) x
    (lo1 + hi2) (lo1 + lo2) operands ≫= foldedConstant g.
Proof.
  intros Hw Hw32 Hc Hwf Hbw Hb1 Hh1 Hb2 Hh2 Hinner Hty1 Hc1.
  rewrite (BitsPrimOp_fold_bitsConstant g x hi1 lo1 operands c w) in Hinner by assumption.
  injection Hinner as <-.
  rewrite (BitsPrimOp_fold_bitsConstant g x (lo1 + hi2) (lo1 + lo2) operands c w)
    by (assumption || lia).
  rewrite (BitsPrimOp_fold_bitsConstant g1 v1 hi2 lo2 operands (bitsConstant c hi1 lo1)
             (sliceWidth hi1 lo1)).
  - f_equal. apply bitsConstant_nested; lia.
  - rewrite Hty1. reflexivity.
  - unfold sliceWidth. lia.
  - assumption.
  - unfold sliceWidth. lia.
  - assumption.
  - apply bitsConstant_wf. lia.
  - unfold bitsConstant, sliceWidth. cbn. lia.
Qed.

Lemma ShrPrimOp_fold_shrConstant (g : Graph) (ty : IntType) (input : Value)
    (amount : Z) (operands : list (option Attribute)) (c : APInt.t) (w : N) :
  0 < amount < 2 ^ 31 ->
  getWidth (getType input) = Some w -> Z.of_N w < 2 ^ 31 ->
  m_FConstant g input = Some c -> APInt.wf c -> APInt.getBitWidth c = Z.of_N w ->
  ShrPrimOp_fold g ty input amount operands =
    Some (FoldAttr (IntegerAttr
      (shrConstant (isSigned (getType input)) (Z.of_N w) amount c))).
Proof.
  intros Hamt Hw Hw31 Hc [Hpos Hrange] Hbw.
  unfold ShrPrimOp_fold. rewrite to_int_small by lia.
  destruct (Z.eqb_spec amount 0) as [E | _]; [lia |].
  rewrite (getWidthOrSentinel_known _ _ Hw), Hc.
  set (W := Z.of_N w) in *.
  destruct (Z.eqb_spec W (-1)) as [E | _]; [lia |].
  unfold isUnsigned, shrConstant.
  pose proof Hrange as Hrange'. rewrite Hbw in Hrange', Hpos.
  destruct (isSigned (getType input)) eqn:Hs; cbn [negb andb].
  - rewrite Bool.andb_false_r.
    rewrite !to_unsigned_small by lia.
    rewrite ashr_ok by (rewrite Hbw; lia).
    cbn [mbind option_bind]. rewrite Hbw.
    destruct (Z_lt_le_dec (Z.max (W - amount) 1) W) as [Hlt | Hge].
    + rewrite truncOrSelf_lt by (cbn; lia).
      cbn. rewrite mod_pow2_mod_pow2 by lia. reflexivity.
    + rewrite truncOrSelf_ge by (cbn; lia).
      cbn. replace (Z.max (W - amount) 1) with W by lia. reflexivity.
  - rewrite Bool.andb_true_r.
    destruct (Z.leb_spec W amount) as [Hle | Hgt].
    + cbn. replace (Z.max (W - amount) 1) with 1 by lia.
      rewrite (shiftr_small _ _ W) by lia. reflexivity.
    + rewrite !to_unsigned_small by lia.
      rewrite lshr_ok by (rewrite Hbw; lia).
      cbn [mbind option_bind]. rewrite Hbw.
      rewrite truncOrSelf_lt by (cbn; lia).
      cbn. replace (Z.min amount W) with amount by lia. reflexivity.
Qed.

Lemma sext_shiftr_mod (c : APInt.t) (m : Z) :
  APInt.wf c -> 0 <= m < APInt.getBitWidth c ->
  Z.shiftr (APInt.getSExtValue c) m mod 2 ^ (APInt.getBitWidth c - m) =
  Z.shiftr (APInt.getZExtValue c) m mod 2 ^ (APInt.getBitWidth c - m).
Proof.
  intros [Hpos Hr] Hm. unfold APInt.getSExtValue.
  destruct (_ <? _); [reflexivity |].
  rewrite !Z.shiftr_div_pow2 by lia.
  replace (APInt.getZExtValue c - 2 ^ APInt.getBitWidth c)
    with (APInt.getZExtValue c + (- 2 ^ (APInt.getBitWidth c - m)) * 2 ^ m).
  - rewrite Z.div_add by (apply Z.pow_nonzero; lia).
    replace (APInt.getZExtValue c / 2 ^ m + - 2 ^ (APInt.getBitWidth c - m))
      with (APInt.getZExtValue c / 2 ^ m + (-1) * 2 ^ (APInt.getBitWidth c - m)) by lia.
    apply Z.mod_add. apply Z.pow_nonzero; lia.
  - rewrite Z.mul_opp_l, <- Z.pow_add_r by lia.
    replace (APInt.getBitWidth c - m + m) with (APInt.getBitWidth c) by lia. lia.
Qed.

Lemma shrConstant_bitsConstant (signed : bool) (w amount : Z) (c : APInt.t) :
  APInt.wf c -> APInt.getBitWidth c = w -> 0 <= amount ->
  (w <= amount -> signed = true) ->
  shrConstant signed w amount c = bitsConstant c (w - 1) (shrSliceLo w amount).
Proof.
  intros Hwf Hbw Hamt Hs. pose proof Hwf as [Hpos Hr].
  unfold shrConstant, bitsConstant, shrSliceLo. subst w.
  set (w := APInt.getBitWidth c) in *.
  destruct (Z.ltb_spec amount w) as [Hlt | Hge].
  - replace (Z.max (w - amount) 1) with (w - amount) by lia.
    replace (w - 1 - amount + 1) with (w - amount) by lia. f_equal.
    destruct signed; [| reflexivity].
    replace (Z.min amount (w - 1)) with amount by lia.
    apply sext_shiftr_mod; [assumption | lia].
  - rewrite (Hs Hge).
    replace (Z.max (w - amount) 1) with 1 by lia.
    replace (w - 1 - (w - 1) + 1) with 1 by lia. f_equal.
    replace (Z.min amount (w - 1)) with (w - 1) by lia.
    pose proof (sext_shiftr_mod c (w - 1) Hwf) as H.
    fold w in H. replace (w - (w - 1)) with 1 in H by lia. apply H. lia.
Qed.

Lemma bitsConstant_whole (c : APInt.t) :
  APInt.wf c -> bitsConstant c (APInt.getBitWidth c - 1) 0 = c.
Proof.
  intros [Hpos Hr]. unfold bitsConstant. destruct c as [w v]. cbn in *.
  replace (w - 1 - 0 + 1) with w by lia.
  rewrite Z.shiftr_0_r, Z.mod_small by assumption. reflexivity.
Qed.

(** X11: the rewrite of a shift-right agrees with its fold.  On a constant
    input of known width [w >= 1], [ShrPrimOp::fold] stands for the same
    constant as the fold of the extract [w-1 : lo] the pattern of [ShrPrimOp]
    asks for ([lo] the shift amount below [w], [w-1] from [w] on for a signed
    input): an arithmetic shift of a signed payload keeps exactly the bits of
    a slice. *)
Theorem ShrPrimOp_fold_is_slice (g : Graph) (ty : IntType) (input : Value)
    (amount : Z) (operands : list (option Attribute)) (c : APInt.t) (w : N) :
  0 <= amount < 2 ^ 31 ->
  getWidth (getType input) = Some w -> 0 < Z.of_N w < 2 ^ 31 ->
  m_FConstant g input = Some c -> APInt.wf c -> APInt.getBitWidth c = Z.of_N w ->
  (Z.of_N w <= amount -> isSigned (getType input) = true) ->
  let lo := shrSliceLo (Z.of_N w) amount in
  ShrPrimOp_fold g ty input amount operands ≫= foldedConstant g =
  BitsPrimOp_fold g (UInt (sliceWidth (Z.of_N w - 1) lo)) input (Z.of_N w - 1) lo
    operands ≫= foldedConstant g.
Proof.
  intros Hamt Hw Hw31 Hc Hwf Hbw Hs lo.
  assert (Hlo : 0 <= lo <= Z.of_N w - 1).
  { subst lo. unfold shrSliceLo. destruct (Z.ltb_spec amount (Z.of_N w)); lia. }
  rewrite (BitsPrimOp_fold_bitsConstant g input (Z.of_N w - 1) lo operands c w)
    by (assumption || lia).
  destruct (Z.eq_dec amount 0) as [-> | Hnz].
  - unfold ShrPrimOp_fold. cbn [mbind option_bind foldedConstant].
    change (Int32.to_int 0 =? 0) with true. cbn [mbind option_bind foldedConstant].
    rewrite Hc. f_equal. subst lo. unfold shrSliceLo.
    destruct (Z.ltb_spec 0 (Z.of_N w)); [| lia].
    rewrite <- Hbw. symmetry. now apply bitsConstant_whole.
  - rewrite (ShrPrimOp_fold_shrConstant g ty input amount operands c w)
      by (assumption || lia).
    cbn [mbind option_bind foldedConstant]. f_equal.
    apply shrConstant_bitsConstant; auto; lia.
Qed.

(** ** What the patterns create *)

(** X12: on well-formed nested extracts (the outer slice [hi:lo] lies inside
    the inner one, of [hi1 - lo1 + 1] bits) the pattern of [BitsPrimOp]
    replaces the outer extract by a value of the same type, and the extract it
    creates reads the slice [lo1+hi : lo1+lo] of [x], which lies inside the
    inner slice [hi1:lo1] and has the width of the outer one. *)
Theorem BitsPrimOp_canonicalize_well_typed (op : positive) (st : PatternRewriter)
    (innerTy : IntType) (input x : Value) (hi lo hi1 lo1 : Z) :
  ops st !! op = Some (BitsPrimOp (UInt (sliceWidth hi lo)) input hi lo) ->
  getDefiningOp (ops st) input = Some (BitsPrimOp innerTy x hi1 lo1) ->
  0 <= lo <= hi -> 0 <= lo1 -> hi <= hi1 - lo1 -> hi1 < 2 ^ 32 ->
  let ty := UInt (sliceWidth hi lo) in
  let r := canonicalize op st in
  r.1 = success /\
  trace r.2 = OpReplaced op (mkValue (nextId st) ty)
                :: OpInserted (nextId st) (BitsPrimOp ty x (lo1 + hi) (lo1 + lo))
                :: trace st /\
  lo1 <= lo1 + lo <= lo1 + hi /\ lo1 + hi <= hi1 /\
  sliceWidth (lo1 + hi) (lo1 + lo) = sliceWidth hi lo.
Proof.
  intros Hop Hin Hlo Hlo1 Hhi Hhi1. cbv zeta.
  unfold canonicalize. rewrite Hop.
  unfold BitsPrimOp_matchAndRewrite. rewrite Hin.
  rewrite nested_bits_hi.
  replace (Int32.add lo lo1) with (lo1 + lo)
    by (unfold Int32.add; rewrite to_unsigned_small by lia; lia).
  replace (Int32.add lo1 hi) with (lo1 + hi)
    by (unfold Int32.add; rewrite to_unsigned_small by lia; lia).
  assert (Hsw : sliceWidth (lo1 + hi) (lo1 + lo) = sliceWidth hi lo)
    by (unfold sliceWidth; f_equal; lia).
  rewrite run_then_success. cbn [fst snd].
  split; [reflexivity |]. split.
  - rewrite replaceOpWithNewOp_trace. unfold BitsPrimOp_getResultType.
    fold (sliceWidth (lo1 + hi) (lo1 + lo)). rewrite Hsw. reflexivity.
  - split; [lia |]. split; [lia | exact Hsw].
Qed.

(** X13: on [cat(bits(x, hi, mid+1), bits(x, mid, lo))] with well-formed
    slices ([lo <= mid < hi]) and a concatenation declared unsigned with the
    sum of the widths of the two extracts, the extract the pattern of
    [CatPrimOp] creates with the type of the concatenation is well typed: that
    type is the unsigned type of [hi - lo + 1] bits, the width of the slice
    [hi:lo]. *)
Theorem CatPrimOp_canonicalize_well_typed (op : positive) (st : PatternRewriter)
    (ty lty rty : IntType) (lhs rhs x : Value) (hi mid lo : Z) :
  ops st !! op = Some (CatPrimOp ty lhs rhs) ->
  getDefiningOp (ops st) lhs = Some (BitsPrimOp lty x hi (mid + 1)) ->
  getDefiningOp (ops st) rhs = Some (BitsPrimOp rty x mid lo) ->
  0 <= lo <= mid -> mid < hi -> mid < 2 ^ 32 ->
  isSigned ty = false ->
  getWidth ty = Some (sliceWidth hi (mid + 1) + sliceWidth mid lo)%N ->
  let r := canonicalize op st in
  r.1 = success /\
  trace r.2 = OpReplaced op (mkValue (nextId st) ty)
                :: OpInserted (nextId st) (BitsPrimOp ty x hi lo) :: trace st /\
  ty = BitsPrimOp_getResultType (getType x) hi lo /\
  lo <= hi.
Proof.
  intros Hop Hl Hr Hlo Hhi Hmid Hs Hw. cbv zeta.
  unfold canonicalize. rewrite Hop.
  unfold CatPrimOp_matchAndRewrite. rewrite Hl, Hr.
  rewrite bool_decide_eq_true_2 by reflexivity.
  replace (Int32.sub (mid + 1) 1) with mid
    by (unfold Int32.sub; rewrite to_unsigned_small by lia; lia).
  rewrite Z.eqb_refl. cbn [andb].
  rewrite run_then_success. cbn [fst snd].
  split; [reflexivity |]. split; [apply replaceOpWithNewOp_trace |].
  split; [| lia].
  apply IntType_ext; [exact Hs |]. rewrite Hw.
  unfold BitsPrimOp_getResultType, UInt, sliceWidth. cbn [getWidth]. f_equal. lia.
Qed.

Lemma replaceWithBits_valid_extract (op : positive) (ty : IntType) (input : Value)
    (hi lo w : Z) (st : PatternRewriter) :
  0 <= lo <= hi -> hi < w ->
  exists new,
    trace (replaceWithBits op ty input hi lo st).2 = new ++ trace st /\
    Forall (insertsValidExtract input w) new.
Proof.
  intros Hlo Hhi. rewrite replaceWithBits_trace.
  exists (OpReplaced op (replacementValue st ty input hi lo)
            :: castEvents st ty input hi lo ++ slicedEvents st ty input hi lo).
  split; [now rewrite <- app_comm_cons, app_assoc |].
  constructor; [exact I |]. apply Forall_app. split.
  - unfold castEvents, castOperation.
    destruct (eqb _ _); [constructor |].
    constructor; [| constructor].
    destruct (if decide _ then _ else _); cbn; [exact I |].
    destruct (isSigned ty); exact I.
  - unfold slicedEvents. destruct (decide _); [constructor |].
    constructor; [| constructor]. cbn.
    split; [reflexivity |]. split; [lia |]. split; [lia | reflexivity].
Qed.

(** X14: every extract the patterns of [HeadPrimOp], [TailPrimOp] and
    [ShrPrimOp] insert is a well-formed slice of the input of the operation:
    for an input of known width [w], a keep amount in [1..w], a drop amount in
    [0..w-1], and any shift amount when [w >= 1], the slice [hi:lo] has
    [0 <= lo <= hi < w] and is declared with [hi - lo + 1] bits. *)
Theorem patterns_insert_valid_extracts (op : positive) (ty : IntType) (input : Value)
    (amount : Z) (w : N) (st : PatternRewriter) :
  getWidth (getType input) = Some w -> Z.of_N w < 2 ^ 31 ->
  (0 < amount <= Z.of_N w ->
   exists new,
     trace (HeadPrimOp_matchAndRewrite op ty input amount st).2 = new ++ trace st /\
     Forall (insertsValidExtract input (Z.of_N w)) new) /\
  (0 <= amount < Z.of_N w ->
   exists new,
     trace (TailPrimOp_matchAndRewrite op ty input amount st).2 = new ++ trace st /\
     Forall (insertsValidExtract input (Z.of_N w)) new) /\
  (0 <= amount < 2 ^ 31 -> 0 < Z.of_N w ->
   exists new,
     trace (ShrPrimOp_matchAndRewrite op ty input amount st).2 = new ++ trace st /\
     Forall (insertsValidExtract input (Z.of_N w)) new).
Proof.
  intros Hw Hw31. split; [| split].
  - intros Hamt.
    rewrite (HeadPrimOp_matchAndRewrite_known _ _ _ _ _ _ Hw Hw31 Hamt). cbn [snd].
    apply replaceWithBits_valid_extract; lia.
  - intros Hamt.
    rewrite (TailPrimOp_matchAndRewrite_known _ _ _ _ _ _ Hw Hw31 Hamt). cbn [snd].
    apply replaceWithBits_valid_extract; lia.
  - intros Hamt Hpos.
    destruct (Z.ltb_spec amount (Z.of_N w)) as [Hlt | Hge].
    + rewrite (ShrPrimOp_matchAndRewrite_lt _ _ _ _ _ _ Hw) by lia. cbn [snd].
      apply replaceWithBits_valid_extract; lia.
    + destruct (isUnsigned ty) eqn:Hu.
      * rewrite (ShrPrimOp_matchAndRewrite_ge_unsigned _ _ _ _ _ _ Hw) by (auto; lia).
        exists []. split; [reflexivity | constructor].
      * rewrite (ShrPrimOp_matchAndRewrite_ge_signed _ _ _ _ _ _ Hw) by (auto; lia).
        cbn [snd]. apply replaceWithBits_valid_extract; lia.
Qed.

(** ** Conversions *)

Section ConversionProperties.
Context {Ty : Type} `{EqDecision Ty}.

Lemma undoneCast_spec (g : gmap positive (CastOperation Ty)) (kind : CastKind)
    (ty : Ty) (operand v : CastValue Ty) :
  undoneCast g kind ty operand = Some v <->
  exists inner, castDefiningOp g operand = Some inner /\
                castKind inner = kind /\ v = getOperand inner /\
                castType (getOperand inner) = ty.
Proof.
  unfold undoneCast. split.
  - destruct (castDefiningOp g operand) as [inner |]; [| discriminate].
    destruct (bool_decide (castKind inner = kind)) eqn:E1; cbn [andb]; [| discriminate].
    destruct (bool_decide (castType (getOperand inner) = ty)) eqn:E2; [| discriminate].
    apply bool_decide_eq_true_1 in E1, E2. intros [= <-]. eauto.
  - intros (inner & -> & Hk & -> & Ht).
    rewrite !bool_decide_eq_true_2 by assumption. reflexivity.
Qed.

(** X15: a fold of a cast ([StdIntCastOp], [AnalogInOutCastOp],
    [AsPassivePrimOp], [AsNonPassivePrimOp]) only ever returns a value of the
    result type of the cast, and that value is the operand of the inverse cast
    that defines the operand -- or, for [AsPassivePrimOp] alone, the operand
    itself when it already has the result type. *)
Theorem castFold_sound (g : gmap positive (CastOperation Ty))
    (op : CastOperation Ty) (v : CastValue Ty) :
  castFold g op = Some v ->
  castType v = castResultType op /\
  ((castKind op = AsPassivePrimOp /\ v = getOperand op) \/
   exists inner, castDefiningOp g (getOperand op) = Some inner /\
                 castKind inner = inverseCast (castKind op) /\
                 v = getOperand inner).
Proof.
  unfold castFold, StdIntCastOp_fold, AnalogInOutCastOp_fold,
    AsPassivePrimOp_fold, AsNonPassivePrimOp_fold.
  destruct (castKind op) eqn:Hk; cbn [inverseCast].
  3: destruct (decide (castType (getOperand op) = castResultType op)) as [E | E];
       [intros [= <-]; split; [exact E | left; split; reflexivity] |].
  all: intros Hf; apply undoneCast_spec in Hf as (inner & Hd & Hki & -> & Ht);
       split; [exact Ht | right; exists inner; auto].
Qed.

(** X16: round trip.  A cast whose operand is defined by the inverse cast of
    a value [x] of the result type folds, to a value of the result type; it
    folds to [x] itself, except that [AsPassivePrimOp] returns its own operand
    when that already has the result type. *)
Theorem castFold_round_trip (g : gmap positive (CastOperation Ty))
    (op inner : CastOperation Ty) :
  castDefiningOp g (getOperand op) = Some inner ->
  castKind inner = inverseCast (castKind op) ->
  castType (getOperand inner) = castResultType op ->
  exists v,
    castFold g op = Some v /\ castType v = castResultType op /\
    (castKind op <> AsPassivePrimOp \/
     castType (getOperand op) <> castResultType op -> v = getOperand inner).
Proof.
  intros Hd Hk Ht.
  assert (Hu : undoneCast g (inverseCast (castKind op)) (castResultType op)
                 (getOperand op) = Some (getOperand inner))
    by (apply undoneCast_spec; eauto).
  unfold castFold, StdIntCastOp_fold, AnalogInOutCastOp_fold,
    AsPassivePrimOp_fold, AsNonPassivePrimOp_fold.
  destruct (castKind op) eqn:Hkop; cbn [inverseCast] in Hu.
  3: destruct (decide (castType (getOperand op) = castResultType op)) as [E | E];
       [exists (getOperand op); split; [reflexivity |]; split; [exact E |];
        intros [Hc | Hc]; contradiction |].
  all: exists (getOperand inner); split; [exact Hu |]; split; [exact Ht | reflexivity].
Qed.
End ConversionProperties.

(** ** The constants the folds return *)
















(** ** Unknown widths in pad and shl *)

(** X18: with an input of unknown width, [PadPrimOp::fold] folds only by its
    same-type identity and [ShlPrimOp::fold] only by its zero-amount
    identity: otherwise both return no fold, even on a constant input.  A pad
    of a constant of known width to a type of unknown width does not fold
    either. *)
Theorem Pad_Shl_unknown_width (g : Graph) (ty : IntType) (input : Value)
    (amount : Z) (operands : list (option Attribute)) :
  (getWidth (getType input) = None ->
     PadPrimOp_fold g ty input amount operands =
       (if decide (getType input = ty) then Some (FoldValue input) else Some NoFold) /\
     ShlPrimOp_fold g ty input amount operands =
       (if Int32.to_int amount =? 0 then Some (FoldValue input) else Some NoFold)) /\
  (getWidth ty = None -> getType input <> ty ->
     PadPrimOp_fold g ty input amount operands = Some NoFold).
Proof.
  split.
  - intros Hw. pose proof (getWidthOrSentinel_unknown _ Hw) as Hs. split.
    + unfold PadPrimOp_fold. rewrite Hs. reflexivity.
    + unfold ShlPrimOp_fold. rewrite Hs.
      destruct (_ =? 0); [reflexivity |].
      destruct (m_FConstant g input); reflexivity.
  - intros Hw Hne. pose proof (getWidthOrSentinel_unknown _ Hw) as Hs.
    unfold PadPrimOp_fold. rewrite Hs.
    destruct (decide (getType input = ty)); [contradiction |].
    destruct (_ =? -1); [reflexivity |].
    destruct (m_FConstant g input); reflexivity.
Qed.

(** ** The IR after a rewrite *)

Lemma operandsOf_replaceUsesIn (old : positive) (new : Value) (o : Operation) :
  operandsOf (replaceUsesIn old new o) = map (replaceUse old new) (operandsOf o).
Proof. destruct o; reflexivity. Qed.

Lemma replaceOp_erases (op : positive) (v : Value) (st : PatternRewriter) :
  valueId v <> op ->
  ops (replaceOp op v st).2 !! op = None /\ unused op (ops (replaceOp op v st).2).
Proof.
  intros Hv. cbn. split.
  - rewrite lookup_fmap, lookup_delete_eq. reflexivity.
  - intros j o u Hj Hu. rewrite lookup_fmap in Hj.
    destruct (delete op (ops st) !! j) as [o' |]; [| discriminate].
    cbn in Hj. injection Hj as <-.
    rewrite operandsOf_replaceUsesIn in Hu. apply in_map_iff in Hu as (u' & <- & _).
    unfold replaceUse. destruct (decide (valueId u' = op)); assumption.
Qed.

Lemma replaceOp_fresh (op : positive) (v : Value) (st : PatternRewriter) :
  fresh st -> fresh (replaceOp op v st).2.
Proof.
  intros Hf i Hi. cbn in *. rewrite lookup_fmap.
  destruct (decide (i = op)) as [-> | Hne].
  - rewrite lookup_delete_eq. reflexivity.
  - rewrite lookup_delete_ne by done. rewrite (Hf i Hi). reflexivity.
Qed.

Lemma create_fresh (o : Operation) (st : PatternRewriter) :
  fresh st -> fresh (create o st).2 /\ nextId (create o st).2 = Pos.succ (nextId st).
Proof.
  intros Hf. split; [| reflexivity]. intros i Hi. cbn in *.
  rewrite lookup_insert_ne by lia. apply Hf. lia.
Qed.

Lemma createOrFold_fresh (mk : IntType -> Value -> Operation)
    (hook : list (option Attribute) -> OpFoldResult) (ty : IntType) (v : Value)
    (st : PatternRewriter) :
  (forall l, hook l = NoFold \/ exists a, hook l = FoldAttr a) ->
  fresh st ->
  fresh (createOrFold mk hook ty v st).2 /\
  nextId (createOrFold mk hook ty v st).2 = Pos.succ (nextId st) /\
  valueId (createOrFold mk hook ty v st).1 = nextId st.
Proof.
  intros Hhook Hf. unfold createOrFold.
  destruct (Hhook [m_Constant (ops st) v]) as [-> | [a ->]].
  - split; [apply create_fresh, Hf | split; reflexivity].
  - split; [apply create_fresh, Hf | split; reflexivity].
Qed.

Lemma cast_hooks (l : list (option Attribute)) :
  (AsSIntPrimOp_fold l = NoFold \/ exists a, AsSIntPrimOp_fold l = FoldAttr a) /\
  (AsUIntPrimOp_fold l = NoFold \/ exists a, AsUIntPrimOp_fold l = FoldAttr a).
Proof.
  unfold AsSIntPrimOp_fold, AsUIntPrimOp_fold.
  destruct l as [| [[c] |] l]; split; eauto.
Qed.

(** What [replaceWithBits] ends with: the replacement of the root by a value
    that is not the root's own result. *)
Lemma replaceWithBits_ends (op : positive) (ty : IntType) (value : Value)
    (hi lo : Z) (st : PatternRewriter) :
  fresh st -> (op < nextId st)%positive -> valueId value <> op ->
  exists v st1,
    (replaceWithBits op ty value hi lo st).2 = (replaceOp op v st1).2 /\
    valueId v <> op /\ fresh st1 /\ (nextId st <= nextId st1)%positive.
Proof.
  intros Hf Hop Hv. unfold replaceWithBits, bind, ret.
  destruct (decide (getWidth (getType value) = getWidth ty)) as [E | E].
  - destruct (isSigned ty && negb (isSigned (getType value))).
    + destruct (createOrFold_fresh AsSIntPrimOp AsSIntPrimOp_fold ty value st)
        as (Hf1 & Hn1 & Hid); [intros l; apply cast_hooks | exact Hf |].
      destruct (createOrFold _ _ ty value st) as [v1 st1]. cbn [fst snd] in *.
      exists v1, st1. repeat split; auto; lia.
    + destruct (isUnsigned ty && negb (isUnsigned (getType value))).
      * destruct (createOrFold_fresh AsUIntPrimOp AsUIntPrimOp_fold ty value st)
          as (Hf1 & Hn1 & Hid); [intros l; apply cast_hooks | exact Hf |].
        destruct (createOrFold _ _ ty value st) as [v1 st1]. cbn [fst snd] in *.
        exists v1, st1. repeat split; auto; lia.
      * exists value, st. repeat split; auto; lia.
  - unfold create_BitsPrimOp.
    destruct (create_fresh (BitsPrimOp (BitsPrimOp_getResultType (getType value) hi lo)
                              value hi lo) st Hf) as [Hf0 Hn0].
    destruct (create _ st) as [v0 st0] eqn:Ec.
    assert (Hv0 : valueId v0 = nextId st) by (injection Ec as <- _; reflexivity).
    cbn [fst snd] in *.
    destruct (isSigned ty && negb (isSigned (getType v0))).
    + destruct (createOrFold_fresh AsSIntPrimOp AsSIntPrimOp_fold ty v0 st0)
        as (Hf1 & Hn1 & Hid); [intros l; apply cast_hooks | exact Hf0 |].
      destruct (createOrFold _ _ ty v0 st0) as [v1 st1]. cbn [fst snd] in *.
      exists v1, st1. repeat split; auto; lia.
    + destruct (isUnsigned ty && negb (isUnsigned (getType v0))).
      * destruct (createOrFold_fresh AsUIntPrimOp AsUIntPrimOp_fold ty v0 st0)
          as (Hf1 & Hn1 & Hid); [intros l; apply cast_hooks | exact Hf0 |].
        destruct (createOrFold _ _ ty v0 st0) as [v1 st1]. cbn [fst snd] in *.
        exists v1, st1. repeat split; auto; lia.
      * exists v0, st0. repeat split; auto; lia.
Qed.

Lemma replaceOpWithNewOp_ends (op : positive) (newOp : Operation) (st : PatternRewriter) :
  fresh st -> (op < nextId st)%positive ->
  exists v st1,
    (replaceOpWithNewOp op newOp st).2 = (replaceOp op v st1).2 /\
    valueId v <> op /\ fresh st1 /\ (nextId st <= nextId st1)%positive.
Proof.
  intros Hf Hop. unfold replaceOpWithNewOp, bind.
  destruct (create_fresh newOp st Hf) as [Hf0 Hn0].
  destruct (create newOp st) as [v0 st0] eqn:Ec.
  assert (Hv0 : valueId v0 = nextId st) by (injection Ec as <- _; reflexivity).
  cbn [fst snd] in *. exists v0, st0. repeat split; auto; lia.
Qed.

Lemma canonicalize_ends (op : positive) (st : PatternRewriter) (root : Operation) :
  fresh st -> ops st !! op = Some root ->
  (forall u, In u (operandsOf root) -> valueId u <> op) ->
  (canonicalize op st).2 = st \/
  exists v st1,
    (canonicalize op st).2 = (replaceOp op v st1).2 /\
    valueId v <> op /\ fresh st1 /\ (nextId st <= nextId st1)%positive.
Proof.
  intros Hf Hroot Huse.
  assert (Hop : (op < nextId st)%positive).
  { destruct (Pos.ltb_spec op (nextId st)) as [? | Hge]; [assumption |].
    rewrite (Hf op Hge) in Hroot. discriminate. }
  unfold canonicalize. rewrite Hroot.
  destruct root; try (left; reflexivity).
  - unfold CatPrimOp_matchAndRewrite.
    destruct (getDefiningOp (ops st) lhs) as [[] |]; try (left; reflexivity).
    destruct (getDefiningOp (ops st) rhs) as [[] |]; try (left; reflexivity).
    destruct (_ && _); [| left; reflexivity].
    rewrite run_then_success. right. now apply replaceOpWithNewOp_ends.
  - unfold BitsPrimOp_matchAndRewrite.
    destruct (getDefiningOp (ops st) input) as [[] |]; try (left; reflexivity).
    rewrite run_then_success. right. now apply replaceOpWithNewOp_ends.
  - unfold HeadPrimOp_matchAndRewrite.
    destruct (_ =? -1); [left; reflexivity |].
    rewrite run_then_success.
    destruct (negb _); [| left; reflexivity].
    right. apply replaceWithBits_ends; auto. apply Huse. cbn. auto.
  - unfold TailPrimOp_matchAndRewrite.
    destruct (_ =? -1); [left; reflexivity |].
    rewrite run_then_success.
    destruct (negb _); [| left; reflexivity].
    right. apply replaceWithBits_ends; auto. apply Huse. cbn. auto.
  - unfold ShrPrimOp_matchAndRewrite.
    destruct (_ =? -1); [left; reflexivity |].
    destruct (_ <=? _).
    + destruct (isUnsigned ty); [left; reflexivity |].
      rewrite run_then_success.
      right. apply replaceWithBits_ends; auto. apply Huse. cbn. auto.
    + rewrite run_then_success.
      right. apply replaceWithBits_ends; auto. apply Huse. cbn. auto.
Qed.

(** X19: a canonicalization keeps the IR in order.  From a state whose next
    ids are unused, on a root that does not use its own result, the pattern
    leaves the next ids unused and never lowers the next id; and whenever it
    told the listener anything, the root has been erased and no operation of
    the IR uses its result any more. *)
Theorem canonicalize_keeps_ir (op : positive) (st : PatternRewriter) (root : Operation) :
  fresh st -> ops st !! op = Some root ->
  (forall u, In u (operandsOf root) -> valueId u <> op) ->
  let st' := (canonicalize op st).2 in
  fresh st' /\ (nextId st <= nextId st')%positive /\
  (trace st' <> trace st ->
   ops st' !! op = None /\ unused op (ops st')).
Proof.
  intros Hf Hroot Huse st'. subst st'.
  destruct (canonicalize_ends op st root Hf Hroot Huse)
    as [-> | (v & st1 & -> & Hv & Hf1 & Hn)].
  - split; [assumption |]. split; [lia |]. intros H. contradiction.
  - split; [now apply replaceOp_fresh |]. split; [exact Hn |].
    intros _. now apply replaceOp_erases.
Qed.

(** ** Instances of the further properties *)



Lemma wf_small (w v : Z) : 0 < w -> 0 <= v < 2 ^ w -> APInt.wf (APInt.mk w v).
Proof. intros Hw Hv. split; assumption. Qed.


Lemma AndPrimOp_fold_constants_witness :
  AndPrimOp_fold FoldExamples.constants (UInt 4) FoldExamples.twelve FoldExamples.ten
    (constOperands FoldExamples.constants FoldExamples.twelve FoldExamples.ten)
    ≫= foldedConstant FoldExamples.constants = Some (APInt.mk 4 8).
Proof.
  assert (H12 : APInt.wf (APInt.mk 4 12)) by (apply wf_small; simpl; lia).
  assert (H10 : APInt.wf (APInt.mk 4 10)) by (apply wf_small; simpl; lia).
  exact (AndPrimOp_fold_constants FoldExamples.constants (UInt 4) FoldExamples.twelve
           FoldExamples.ten (APInt.mk 4 12) (APInt.mk 4 10)
           eq_refl eq_refl H12 H10 eq_refl).
Defined.

Lemma OrPrimOp_fold_constants_witness :
  OrPrimOp_fold FoldExamples.constants (UInt 4) FoldExamples.twelve FoldExamples.ten
    (constOperands FoldExamples.constants FoldExamples.twelve FoldExamples.ten)
    ≫= foldedConstant FoldExamples.constants = Some (APInt.mk 4 14).
Proof.
  assert (H12 : APInt.wf (APInt.mk 4 12)) by (apply wf_small; simpl; lia).
  assert (H10 : APInt.wf (APInt.mk 4 10)) by (apply wf_small; simpl; lia).
  exact (OrPrimOp_fold_constants FoldExamples.constants (UInt 4) FoldExamples.twelve
           FoldExamples.ten (APInt.mk 4 12) (APInt.mk 4 10)
           eq_refl eq_refl H12 H10 eq_refl).
Defined.

Lemma XorPrimOp_fold_constants_witness :
  exists c,
    XorPrimOp_fold FoldExamples.constants (UInt 4) FoldExamples.twelve FoldExamples.ten
      (constOperands FoldExamples.constants FoldExamples.twelve FoldExamples.ten)
      ≫= foldedConstant FoldExamples.constants = Some c /\
    APInt.getZExtValue c = 6 /\
    (FoldExamples.twelve <> FoldExamples.ten -> APInt.getBitWidth c = 4).
Proof.
  assert (H12 : APInt.wf (APInt.mk 4 12)) by (apply wf_small; simpl; lia).
  assert (H10 : APInt.wf (APInt.mk 4 10)) by (apply wf_small; simpl; lia).
  exact (XorPrimOp_fold_constants FoldExamples.constants (UInt 4) FoldExamples.twelve
           FoldExamples.ten (APInt.mk 4 12) (APInt.mk 4 10)
           eq_refl eq_refl H12 H10 eq_refl).
Defined.

Lemma value_folds_have_result_type_witness :
  let g := FoldExamples.constants in
  let x := FoldExamples.x in
  let b := FoldExamples.b in
  (DivPrimOp_fold g (UInt 8) x FoldExamples.one8 [] = Some (FoldValue x) /\
   x = x /\ getType x = UInt 8) /\
  (AndPrimOp_fold g (UInt 8) x x [] = Some (FoldValue x) /\
   (x = x \/ x = x) /\ getType x = UInt 8) /\
  (OrPrimOp_fold g (UInt 8) x FoldExamples.zero8 [] = Some (FoldValue x) /\
   (x = x \/ x = FoldExamples.zero8) /\ getType x = UInt 8) /\
  (XorPrimOp_fold g (UInt 8) x FoldExamples.zero8 [] = Some (FoldValue x) /\
   x = x /\ getType x = UInt 8) /\
  (EQPrimOp_fold g (UInt 1) b FoldExamples.one1 [] = Some (FoldValue b) /\
   b = b /\ getType b = UInt 1) /\
  (NEQPrimOp_fold g (UInt 1) b FoldExamples.zero1 [] = Some (FoldValue b) /\
   b = b /\ getType b = UInt 1) /\
  (PadPrimOp_fold g (UInt 8) x 8 [] = Some (FoldValue x) /\
   x = x /\ getType x = UInt 8) /\
  (BitsPrimOp_fold g (UInt 8) x 7 0 [] = Some (FoldValue x) /\
   x = x /\ getType x = UInt 8).
Proof.
  intros g x b.
  pose proof (value_folds_have_result_type g (UInt 8) x FoldExamples.one8 x 8 7 0 [] x)
    as (Hdiv & _ & _ & _ & _ & _ & Hpad & Hbits).
  pose proof (value_folds_have_result_type g (UInt 8) x x x 8 7 0 [] x)
    as (_ & Hand & _).
  pose proof (value_folds_have_result_type g (UInt 8) x FoldExamples.zero8 x 8 7 0 [] x)
    as (_ & _ & Hor & Hxor & _).
  pose proof (value_folds_have_result_type g (UInt 1) b FoldExamples.one1 x 8 7 0 [] b)
    as (_ & _ & _ & _ & Heq & _).
  pose proof (value_folds_have_result_type g (UInt 1) b FoldExamples.zero1 x 8 7 0 [] b)
    as (_ & _ & _ & _ & _ & Hneq & _).
  split; [exact (conj eq_refl (Hdiv eq_refl)) |].
  split; [exact (conj eq_refl (Hand eq_refl)) |].
  split; [exact (conj eq_refl (Hor eq_refl)) |].
  split; [exact (conj eq_refl (Hxor eq_refl)) |].
  split; [exact (conj eq_refl (Heq eq_refl)) |].
  split; [exact (conj eq_refl (Hneq eq_refl)) |].
  split; [exact (conj eq_refl (Hpad eq_refl)) |].
  exact (conj eq_refl (Hbits eq_refl)).
Defined.

Lemma EQ_NEQ_fold_constants_witness :
  let g := FoldExamples.constants in
  (EQPrimOp_fold g (UInt 1) FoldExamples.twelve FoldExamples.ten []
     = Some (FoldAttr (IntegerAttr (APInt.mk 1 0))) /\
   NEQPrimOp_fold g (UInt 1) FoldExamples.twelve FoldExamples.ten []
     = Some (FoldAttr (IntegerAttr (APInt.mk 1 1)))) /\
  (m_FConstant g FoldExamples.x = None /\
   EQPrimOp_fold g (UInt 1) FoldExamples.x FoldExamples.x [] = Some NoFold /\
   NEQPrimOp_fold g (UInt 1) FoldExamples.x FoldExamples.x [] = Some NoFold).
Proof.
  intros g. split.
  - exact (proj1 (EQ_NEQ_fold_constants g (UInt 1) FoldExamples.twelve FoldExamples.ten [])
             (APInt.mk 4 12) (APInt.mk 4 10) eq_refl eq_refl eq_refl).
  - split; [reflexivity |].
    exact (proj2 (EQ_NEQ_fold_constants g (UInt 1) FoldExamples.x FoldExamples.x [])
             eq_refl).
Defined.

Lemma MuxPrimOp_fold_selects_witness :
  let g := FoldExamples.constants in
  MuxPrimOp_fold g (UInt 8) FoldExamples.one1 FoldExamples.x FoldExamples.y []
    = Some (FoldValue FoldExamples.x) /\
  (FoldExamples.x = FoldExamples.x \/
   (FoldExamples.x = FoldExamples.one1 /\ getType FoldExamples.one1 = UInt 8 /\
    exists c, m_FConstant g FoldExamples.x = Some c /\ APInt.getZExtValue c = 1)).
Proof.
  intros g.
  assert (Hwf : APInt.wf (APInt.mk 1 1)) by (apply wf_small; simpl; lia).
  split; [reflexivity |].
  exact (MuxPrimOp_fold_selects g (UInt 8) FoldExamples.one1 FoldExamples.x
           FoldExamples.y [] (APInt.mk 1 1) FoldExamples.x
           eq_refl Hwf eq_refl eq_refl).
Defined.

Lemma PadPrimOp_fold_constant_witness :
  exists r,
    PadPrimOp_fold Examples.constTen (SInt 6) Examples.c4 6 [None]
      = Some (FoldAttr (IntegerAttr r)) /\
    APInt.getBitWidth r = 6 /\ APInt.wf r /\
    APInt.getSExtValue r = APInt.getSExtValue (APInt.mk 4 10).
Proof.
  assert (Hwf : APInt.wf (APInt.mk 4 10)) by (apply wf_small; simpl; lia).
  assert (Hlt : Z.of_N 4 < Z.of_N 6 < 2 ^ 31) by (simpl; lia).
  exact (PadPrimOp_fold_constant Examples.constTen (SInt 6) Examples.c4 6 [None]
           (APInt.mk 4 10) 4%N 6%N eq_refl eq_refl Hlt eq_refl Hwf eq_refl).
Defined.

Lemma ShlPrimOp_fold_constant_witness :
  ShlPrimOp_fold Examples.constTen (SInt 6) Examples.c4 2 [None]
    = Some (FoldAttr (IntegerAttr (APInt.mk 6 40))) /\
  APInt.wf (APInt.mk 6 40) /\
  APInt.getSExtValue (APInt.mk 6 40) = APInt.getSExtValue (APInt.mk 4 10) * 4.
Proof.
  assert (Hwf : APInt.wf (APInt.mk 4 10)) by (apply wf_small; simpl; lia).
  assert (Hamt : 0 < 2 < 2 ^ 31) by lia.
  assert (Hlt : Z.of_N 4 + 2 < 2 ^ 31) by (simpl; lia).
  exact (ShlPrimOp_fold_constant Examples.constTen (SInt 6) Examples.c4 2 [None]
           (APInt.mk 4 10) 4%N Hamt eq_refl Hlt eq_refl Hwf eq_refl).
Defined.

Lemma BitsPrimOp_fold_constant_witness :
  BitsPrimOp_fold FoldExamples.constants (UInt 2) FoldExamples.c181 6 5 []
    ≫= foldedConstant FoldExamples.constants = Some (APInt.mk 2 1) /\
  APInt.getBitWidth (bitsConstant (APInt.mk 8 181) 6 5) = 2 /\
  APInt.getZExtValue (bitsConstant (APInt.mk 8 181) 6 5) = (181 / 2 ^ 5) mod 2 ^ 2.
Proof.
  assert (Hwf : APInt.wf (APInt.mk 8 181)) by (apply wf_small; simpl; lia).
  assert (Hw : Z.of_N 8 < 2 ^ 32) by (simpl; lia).
  assert (Hlo : 0 <= 5 <= 6) by lia.
  assert (Hhi : 6 < Z.of_N 8) by (simpl; lia).
  exact (BitsPrimOp_fold_constant FoldExamples.constants FoldExamples.c181 6 5 []
           (APInt.mk 8 181) 8%N eq_refl Hw Hlo Hhi eq_refl Hwf eq_refl).
Defined.

Lemma BitsPrimOp_fold_nested_witness :
  BitsPrimOp_fold FoldExamples.constants (UInt 4) FoldExamples.c181 7 4 []
    ≫= foldedConstant FoldExamples.constants = Some (APInt.mk 4 11) /\
  BitsPrimOp_fold FoldExamples.folded (UInt 2) FoldExamples.eleven 2 1 []
    ≫= foldedConstant FoldExamples.folded =
  BitsPrimOp_fold FoldExamples.constants (UInt 2) FoldExamples.c181 6 5 []
    ≫= foldedConstant FoldExamples.constants.
Proof.
  assert (Hwf : APInt.wf (APInt.mk 8 181)) by (apply wf_small; simpl; lia).
  assert (Hw : Z.of_N 8 < 2 ^ 32) by (simpl; lia).
  assert (H1 : 0 <= 4 <= 7) by lia.
  assert (Hh1 : 7 < Z.of_N 8) by (simpl; lia).
  assert (H2 : 0 <= 1 <= 2) by lia.
  assert (Hh2 : 2 <= 7 - 4) by lia.
  split; [reflexivity |].
  exact (BitsPrimOp_fold_nested FoldExamples.constants FoldExamples.folded
           FoldExamples.c181 FoldExamples.eleven 7 4 2 1 []
           (APInt.mk 8 181) (APInt.mk 4 11) 8%N
           eq_refl Hw eq_refl Hwf eq_refl H1 Hh1 H2 Hh2 eq_refl eq_refl eq_refl).
Defined.

Lemma ShrPrimOp_fold_is_slice_witness :
  ShrPrimOp_fold Examples.constTen (SInt 2) Examples.c4 2 [None]
    ≫= foldedConstant Examples.constTen =
  BitsPrimOp_fold Examples.constTen (UInt 2) Examples.c4 3 2 [None]
    ≫= foldedConstant Examples.constTen.
Proof.
  assert (Hwf : APInt.wf (APInt.mk 4 10)) by (apply wf_small; simpl; lia).
  assert (Hamt : 0 <= 2 < 2 ^ 31) by lia.
  assert (Hw : 0 < Z.of_N 4 < 2 ^ 31) by (simpl; lia).
  exact (ShrPrimOp_fold_is_slice Examples.constTen (SInt 2) Examples.c4 2 [None]
           (APInt.mk 4 10) 4%N Hamt eq_refl Hw eq_refl Hwf eq_refl
           (fun _ => eq_refl)).
Defined.

Lemma BitsPrimOp_canonicalize_well_typed_witness :
  (canonicalize 3 Examples.nestedBits).1 = success /\
  trace (canonicalize 3 Examples.nestedBits).2
    = [OpReplaced 3 (mkValue 4 (UInt 2));
       OpInserted 4 (BitsPrimOp (UInt 2) Examples.x8 6 5)] /\
  4 <= 4 + 1 <= 4 + 2 /\ 4 + 2 <= 7 /\
  sliceWidth (4 + 2) (4 + 1) = sliceWidth 2 1.
Proof.
  assert (H1 : 0 <= 1 <= 2) by lia.
  assert (H2 : 0 <= 4) by lia.
  assert (H3 : 2 <= 7 - 4) by lia.
  assert (H4 : 7 < 2 ^ 32) by lia.
  exact (BitsPrimOp_canonicalize_well_typed 3 Examples.nestedBits (UInt 4)
           (mkValue 2 (UInt 4)) Examples.x8 2 1 7 4 eq_refl eq_refl H1 H2 H3 H4).
Defined.

Lemma CatPrimOp_canonicalize_well_typed_witness :
  (canonicalize 4 Examples.catBits).1 = success /\
  trace (canonicalize 4 Examples.catBits).2
    = [OpReplaced 4 (mkValue 5 (UInt 8));
       OpInserted 5 (BitsPrimOp (UInt 8) Examples.x8 7 0)] /\
  UInt 8 = BitsPrimOp_getResultType (getType Examples.x8) 7 0 /\
  0 <= 7.
Proof.
  assert (H1 : 0 <= 0 <= 3) by lia.
  assert (H2 : 3 < 7) by lia.
  assert (H3 : 3 < 2 ^ 32) by lia.
  exact (CatPrimOp_canonicalize_well_typed 4 Examples.catBits (UInt 8) (UInt 4) (UInt 4)
           (mkValue 2 (UInt 4)) (mkValue 3 (UInt 4)) Examples.x8 7 3 0
           eq_refl eq_refl eq_refl H1 H2 H3 eq_refl eq_refl).
Defined.

Lemma patterns_insert_valid_extracts_witness :
  (exists new,
     trace (HeadPrimOp_matchAndRewrite 2 (UInt 3) Examples.s8 3 Examples.headThree).2
       = new ++ trace Examples.headThree /\
     Forall (insertsValidExtract Examples.s8 8) new) /\
  (exists new,
     trace (TailPrimOp_matchAndRewrite 2 (UInt 5) Examples.s8 3 Examples.tailThree).2
       = new ++ trace Examples.tailThree /\
     Forall (insertsValidExtract Examples.s8 8) new) /\
  (exists new,
     trace (ShrPrimOp_matchAndRewrite 2 (SInt 1) Examples.s8 9 Examples.shrNine).2
       = new ++ trace Examples.shrNine /\
     Forall (insertsValidExtract Examples.s8 8) new).
Proof.
  assert (Hw : Z.of_N 8 < 2 ^ 31) by (simpl; lia).
  assert (Hpos : 0 < Z.of_N 8) by (simpl; lia).
  assert (H3 : 0 < 3 <= Z.of_N 8) by (simpl; lia).
  assert (H3' : 0 <= 3 < Z.of_N 8) by (simpl; lia).
  assert (H9 : 0 <= 9 < 2 ^ 31) by lia.
  split; [| split].
  - exact (proj1 (patterns_insert_valid_extracts 2 (UInt 3) Examples.s8 3 8%N
                    Examples.headThree eq_refl Hw) H3).
  - exact (proj1 (proj2 (patterns_insert_valid_extracts 2 (UInt 5) Examples.s8 3 8%N
                           Examples.tailThree eq_refl Hw)) H3').
  - exact (proj2 (proj2 (patterns_insert_valid_extracts 2 (SInt 1) Examples.s8 9 8%N
                           Examples.shrNine eq_refl Hw)) H9 Hpos).
Defined.

Lemma castFold_sound_witness :
  let op := mkCast AsPassivePrimOp 7%nat (mkCastValue 2 9%nat) in
  let v := mkCastValue 1 7%nat in
  castFold exampleCasts op = Some v /\
  castType v = castResultType op /\
  ((castKind op = AsPassivePrimOp /\ v = getOperand op) \/
   exists inner, castDefiningOp exampleCasts (getOperand op) = Some inner /\
                 castKind inner = inverseCast (castKind op) /\
                 v = getOperand inner).
Proof.
  intros op v. split; [reflexivity |].
  exact (castFold_sound exampleCasts op v eq_refl).
Defined.

Lemma castFold_round_trip_witness :
  let op := mkCast AsPassivePrimOp 7%nat (mkCastValue 2 9%nat) in
  let inner := mkCast AsNonPassivePrimOp 9%nat (mkCastValue 1 7%nat) in
  castDefiningOp exampleCasts (getOperand op) = Some inner /\
  exists v,
    castFold exampleCasts op = Some v /\ castType v = castResultType op /\
    (castKind op <> AsPassivePrimOp \/
     castType (getOperand op) <> castResultType op -> v = getOperand inner).
Proof.
  intros op inner. split; [reflexivity |].
  exact (castFold_round_trip exampleCasts op inner eq_refl eq_refl eq_refl).
Defined.





Lemma Pad_Shl_unknown_width_witness :
  (getWidth (getType Examples.xu) = None /\
   PadPrimOp_fold ∅ (UInt 8) Examples.xu 8 [None] = Some NoFold /\
   ShlPrimOp_fold ∅ (UInt 8) Examples.xu 3 [None] = Some NoFold) /\
  (getWidth (mkIntType true None) = None /\
   getType Examples.c4 <> mkIntType true None /\
   PadPrimOp_fold Examples.constTen (mkIntType true None) Examples.c4 6 [None]
     = Some NoFold).
Proof.
  assert (Hne : getType Examples.c4 <> mkIntType true None) by discriminate.
  split.
  - split; [reflexivity |].
    exact (proj1 (Pad_Shl_unknown_width ∅ (UInt 8) Examples.xu 3 [None]) eq_refl).
  - split; [reflexivity |]. split; [exact Hne |].
    exact (proj2 (Pad_Shl_unknown_width Examples.constTen (mkIntType true None)
                    Examples.c4 6 [None]) eq_refl Hne).
Defined.

Lemma nestedBits_fresh : fresh Examples.nestedBits.
Proof.
  intros i Hi. cbn in *. rewrite !lookup_insert_ne by lia. apply lookup_empty.
Qed.

Lemma canonicalize_keeps_ir_witness :
  let st' := (canonicalize 3 Examples.nestedBits).2 in
  fresh Examples.nestedBits /\
  fresh st' /\ (4 <= nextId st')%positive /\
  (trace st' <> trace Examples.nestedBits ->
   ops st' !! 3%positive = None /\ unused 3 (ops st')).
Proof.
  intros st'.
  assert (Huse : forall u, In u (operandsOf (BitsPrimOp (UInt 2) (mkValue 2 (UInt 4)) 2 1)) ->
                           valueId u <> 3%positive).
  { intros u [<- | []]. simpl. lia. }
  split; [exact nestedBits_fresh |].
  exact (canonicalize_keeps_ir 3 Examples.nestedBits
           (BitsPrimOp (UInt 2) (mkValue 2 (UInt 4)) 2 1)
           nestedBits_fresh eq_refl Huse).
Defined.
